(** * Unimocks: request dispatch, interception and path templates

    A shallow embedding of [src/index.ts] (APIService, buildURL,
    filterFields, weedOutFields), [src/puppeteer.ts] (RequestMock,
    mockAPI) and of the pact layer (the effect of
    [setupInteractionBuilders] on the service, deepMerge, matcherize,
    reduceToMatchers, getMatcherValue), together with the properties the
    specification states about them and further properties of the code.

    JavaScript values are a first-order tree type; functions supplied by
    the user (live operations, substitutes, responders) are Rocq
    functions into a type of call results that distinguishes a returned
    value, a returned promise and a synchronous throw.  The runtime
    services the code calls ([JSON.parse], [JSON.stringify], [fetch],
    the members of [Object.prototype]) are the fields of a class, and
    every statement holds for all of its instances.  A property read
    [o[key]] on a plain object goes through [Object.prototype]. *)

From Stdlib Require Import ZArith String Ascii List Bool Lia.
From stdpp Require Import base option list gmap strings pretty.
Import ListNotations.

Local Open Scope string_scope.
Set Warnings "-register-all".

(** ** JavaScript values *)

Module Js.

(** A [number] restricted to the integers and NaN: [Int z] is the double
    whose value is the integer [z]. *)
Inductive number : Type :=
| Int (z : Z)
| NaN.

Inductive value : Type :=
| VUndefined
| VNull
| VBool (b : bool)
| VNum (n : number)
| VStr (s : string)
| VArr (items : list value)
| VObj (fields : list (string * value)).

(** [{}] *)
Definition empty_object : value := VObj [].

(** ToBoolean on numbers: [0] and [NaN] are falsy. *)
Definition number_truthy (n : number) : bool :=
  match n with
  | Int z => negb (Z.eqb z 0)
  | NaN => false
  end.

(** ToBoolean. *)
Definition truthy (v : value) : bool :=
  match v with
  | VUndefined | VNull => false
  | VBool b => b
  | VNum n => number_truthy n
  | VStr s => negb (String.eqb s "")
  | VArr _ | VObj _ => true
  end.

(** The double nearest to a positive integer, a tie going to the even
    mantissa. *)
Definition nearest_double (m : Z) : Z :=
  let e := (Z.log2 m - 52)%Z in
  if (e <=? 0)%Z then m
  else
    let q := Z.shiftr m e in
    let r := Z.land m (Z.ones e) in
    let half := Z.shiftl 1 (e - 1) in
    let up := (half <? r)%Z || ((r =? half)%Z && Z.odd q) in
    Z.shiftl (if up then q + 1 else q)%Z e.

(** Number::toString, the choice of the digits: the integer [s] of the
    fewest digits [k], from [k] on, such that [s * 10^(n - k)] is read
    back as the double [z], the nearest to [z] if there are two, with
    the [n] that goes with it. *)
Fixpoint shortest_digits (fuel : nat) (k n z : Z) : option (Z * Z) :=
  match fuel with
  | O => None
  | S fuel' =>
      let p := (10 ^ (n - k))%Z in
      let lo := (z / p)%Z in
      let hi := (lo + 1)%Z in
      let lo_reads := (nearest_double (lo * p) =? z)%Z in
      let hi_reads := (nearest_double (hi * p) =? z)%Z in
      let pick (s : Z) :=
        if (s =? 10 ^ k)%Z then Some (10 ^ (k - 1), n + 1)%Z else Some (s, n) in
      if lo_reads && hi_reads then
        let below := (z - lo * p)%Z in
        let above := (hi * p - z)%Z in
        if (below <? above)%Z then pick lo
        else if (above <? below)%Z then pick hi
        else if Z.even lo then pick lo else pick hi
      else if lo_reads then pick lo
      else if hi_reads then pick hi
      else shortest_digits fuel' (k + 1)%Z n z
  end.

Fixpoint zeros (n : nat) : string :=
  match n with
  | O => ""
  | S n' => String "0" (zeros n')
  end.

(** Number::toString of a positive integer: the digits followed by
    zeros up to 21 places, and one digit, the others after a point, and
    the exponent beyond. *)
Definition positive_to_string (z : Z) : string :=
  let places := Z.of_nat (String.length (pretty z)) in
  match shortest_digits (Z.to_nat places) 1 places z with
  | None => pretty z
  | Some (s, n) =>
      let digits := pretty s in
      let k := Z.of_nat (String.length digits) in
      if (n <=? 21)%Z then digits ++ zeros (Z.to_nat (n - k))
      else
        match digits with
        | EmptyString => ""
        | String d EmptyString => String d ("e+" ++ pretty (n - 1)%Z)
        | String d rest => String d ("." ++ rest ++ "e+" ++ pretty (n - 1)%Z)
        end
  end.

(** Number::toString.  Below [2^53] every integer is a double and
    prints in full. *)
Definition number_to_string (n : number) : string :=
  match n with
  | Int z =>
      if (Z.abs z <? 2 ^ 53)%Z then pretty z
      else if (0 <? z)%Z then positive_to_string z
      else "-" ++ positive_to_string (- z)
  | NaN => "NaN"
  end.

Fixpoint join (sep : string) (parts : list string) : string :=
  match parts with
  | [] => ""
  | [p] => p
  | p :: rest => p ++ sep ++ join sep rest
  end.

(** ToString, as applied by a template literal [`${v}`], for the
    values on which the conversion returns: an object with a property
    of its own named [toString] makes it throw. *)
Fixpoint ToString (v : value) : string :=
  match v with
  | VUndefined => "undefined"
  | VNull => "null"
  | VBool true => "true"
  | VBool false => "false"
  | VNum n => number_to_string n
  | VStr s => s
  | VArr items =>
      join "," (List.map (fun x => match x with
                                   | VUndefined | VNull => ""
                                   | _ => ToString x
                                   end) items)
  | VObj _ => "[object Object]"
  end.

(** The characters of a string as one-character strings. *)
Fixpoint chars (s : string) : list string :=
  match s with
  | EmptyString => []
  | String c rest => String c EmptyString :: chars rest
  end.

(** The own enumerable properties of a value as [Object.keys] lists
    them; the fields of [VObj] are kept in property order. *)
Definition entries (v : value) : list (string * value) :=
  match v with
  | VObj fields => fields
  | VArr items => imap (fun i x => (pretty i, x)) items
  | VStr s => imap (fun i c => (pretty i, VStr c)) (chars s)
  | _ => []
  end.

Definition Object_keys (v : value) : list string := List.map fst (entries v).

Fixpoint assoc {A} (key : string) (l : list (string * A)) : option A :=
  match l with
  | [] => None
  | (k, a) :: rest => if String.eqb k key then Some a else assoc key rest
  end.

(** [v[key]] *)
Definition get (v : value) (key : string) : value :=
  match assoc key (entries v) with
  | Some x => x
  | None => VUndefined
  end.

(** [s.endsWith(suffix)] *)
Fixpoint endsWith (s suffix : string) : bool :=
  if String.eqb s suffix then true
  else match s with
       | EmptyString => false
       | String _ rest => endsWith rest suffix
       end.

Fixpoint drop (n : nat) (s : string) : string :=
  match n, s with
  | O, _ => s
  | S n', String _ rest => drop n' rest
  | S _, EmptyString => EmptyString
  end.

(** The text before and after the first occurrence of [pat] in [s]. *)
Fixpoint split_first (pat s : string) : option (string * string) :=
  if String.prefix pat s then Some ("", drop (String.length pat) s)
  else match s with
       | EmptyString => None
       | String c rest =>
           match split_first pat rest with
           | Some (before, after) => Some (String c before, after)
           | None => None
           end
       end.

(** GetSubstitution for a string pattern (no captures): [$$], [$&],
    [$`] and [$'] are expanded, every other character is literal. *)
Fixpoint GetSubstitution (matched before after template : string) : string :=
  match template with
  | EmptyString => ""
  | String c tl =>
      if Ascii.eqb c "$" then
        match tl with
        | EmptyString => "$"
        | String d rest =>
            if Ascii.eqb d "$" then
              "$" ++ GetSubstitution matched before after rest
            else if Ascii.eqb d "&" then
              matched ++ GetSubstitution matched before after rest
            else if Ascii.eqb d "`" then
              before ++ GetSubstitution matched before after rest
            else if Ascii.eqb d "'" then
              after ++ GetSubstitution matched before after rest
            else "$" ++ GetSubstitution matched before after tl
        end
      else String c (GetSubstitution matched before after tl)
  end.

(** [s.replace(pat, replacement)] with a string pattern: the first
    occurrence only. *)
Definition replace (s pat replacement : string) : string :=
  match split_first pat s with
  | None => s
  | Some (before, after) =>
      before ++ GetSubstitution pat before after replacement ++ after
  end.

(** *** Calls and promises *)

Inductive promise (A : Type) : Type :=
| Fulfilled (a : A)
| Rejected (reason : value)
| Pending.
Arguments Fulfilled {A} a.
Arguments Rejected {A} reason.
Arguments Pending {A}.

(** What calling a user function yields. *)
Inductive completion : Type :=
| Returns (v : value)
| ReturnsPromise (p : promise value)
| Throws (e : value).

(** A function the user supplies: a live operation, a substitute or a
    responder.  It is applied to an input and returns a value, returns
    a promise or throws; what else it does is outside the model. *)
Definition func : Type := value -> completion.

End Js.
Import Js.


(** ** The runtime the library calls *)

(** The second argument of [fetch]. *)
Record RequestInit : Type := {
  init_method : string;
  init_body : option string;
  init_headers : list (string * string);
}.

(** A [Response]; the code reads nothing but its body text, through
    [response.json()]. *)
Record Response : Type := { response_status : Z; response_text : string }.

(** The result of an operation that can throw. *)
Inductive outcome (A : Type) : Type :=
| Ok (a : A)
| Throw (e : value).
Arguments Ok {A} a.
Arguments Throw {A} e.

(** ** src/index.ts: APIService *)

(** The [config] argument of the constructor. *)
Record Config : Type := {
  integrationMocks : option bool;
  config_mocks : option (gmap string func);
  timeout : option number;
}.

(** A service object.  [api] and [config] are the constructor arguments
    the request closures capture; [name] and [mocks] are the public
    fields they read through [this] on every call.  [this.requests] has
    one closure per key of [api]; [api] lists the properties of the
    object in the order of [Object.keys], each key once. *)
Record APIService : Type := {
  name : string;
  api : list (string * func);
  mocks : gmap string func;
  config : option Config;
}.

(** [new APIService(name, api, config)] *)
Definition new_APIService (name : string) (api : list (string * func))
    (config : option Config) : APIService :=
  {| name := name;
     api := api;
     mocks := match config with
              | Some {| config_mocks := Some m |} => m
              | _ => ∅
              end;
     config := config |}.

(** [Object.keys(service.requests)].  The constructor fills
    [this.requests] by assignment, [this.requests[key] = ...], and an
    assignment under [__proto__] reaches the setter of
    [Object.prototype]: the closure becomes the prototype of
    [this.requests], where [service.requests[key]] finds it, and not a
    property of its own. *)
Definition request_keys (s : APIService) : list string :=
  List.filter (fun key => negb (String.eqb key "__proto__")) (List.map fst (api s)).

(** [Object.keys(service.meta)]: [meta] is built with computed keys,
    one property for each key of [api]. *)
Definition meta_keys (s : APIService) : list string := List.map fst (api s).

(** [config?.integrationMocks], as a condition. *)
Definition tunnel_flag (config : option Config) : bool :=
  match config with
  | Some {| integrationMocks := Some b |} => b
  | _ => false
  end.

(** [config?.timeout || 200] *)
Definition delay (config : option Config) : number :=
  match config with
  | Some {| timeout := Some n |} => if number_truthy n then n else Int 200
  | _ => Int 200
  end.

(** What a run of the library does to the outside, in order. *)
Inductive effect : Type :=
| Fetch (url : string) (init : RequestInit)
| SetTimeout (ms : number)
| CallMock (key : string) (input : value)
| CallLive (key : string) (input : value)
| Uncaught (e : value).

(** The promise behind the result of a call: the one [await c] waits for,
    and the one the result of an [async] function follows on [return c].
    A throw while the call is evaluated rejects the [async] function. *)
Definition promise_of (c : completion) : promise value :=
  match c with
  | Returns v => Fulfilled v
  | ReturnsPromise p => p
  | Throws e => Rejected e
  end.

(** Where a wrapped request stands when it first yields: its promise
    follows [p], or a timer is armed and nothing else has happened. *)
Inductive started : Type :=
| Follows (effects : list effect) (p : promise value)
| Armed (ms : number).

Definition not_a_function : value := VStr "TypeError: this.mocks[key] is not a function".

(** ** Properties read through Object.prototype *)

(** The property names of [Object.prototype].  [this.mocks] is a plain
    object ([{}], or the object literal given as [config.mocks]), so
    [this.mocks[key]] under one of these names, when the object has no
    property of its own under it, is the member of [Object.prototype]:
    a function, or for [__proto__] the prototype itself; each is
    truthy. *)
Definition Object_prototype_names : list string :=
  ["constructor"; "__defineGetter__"; "__defineSetter__"; "hasOwnProperty";
   "__lookupGetter__"; "__lookupSetter__"; "isPrototypeOf";
   "propertyIsEnumerable"; "toString"; "valueOf"; "__proto__";
   "toLocaleString"].

(** [key in {}] *)
Definition inherited (key : string) : bool :=
  existsb (String.eqb key) Object_prototype_names.

(** What [o[key]] finds in a plain object [o] of functions: a property
    of [o] itself, or the member of [Object.prototype] of that name. *)
Inductive property : Type :=
| Own (f : func)
| Member (name : string).

(** [o[key]]; [None] is [undefined]. *)
Definition property_of (o : gmap string func) (key : string) : option property :=
  match o !! key with
  | Some f => Some (Own f)
  | None => if inherited key then Some (Member key) else None
  end.

(** The services of the JavaScript runtime the library calls.
    [JSON_parse] throws on a malformed text; [JSON_stringify] gives
    [undefined] for [undefined]; [fetch] returns a promise.
    [Object_prototype_call name receiver input] is the call
    [member(input)] of the member of [Object.prototype] of that name,
    with [receiver] the object it was read from when it is called as a
    method ([o[name](input)]) and none when it is called as a plain
    function; a member that is not a function throws. *)
Class Runtime : Type := {
  JSON_parse : string -> outcome value;
  JSON_stringify : value -> option string;
  fetch : string -> RequestInit -> promise Response;
  Object_prototype_call : string -> option (gmap string func) -> value -> completion;
}.

Section Service.

Context {rt : Runtime}.

(** [await response.json()] after [await fetch(...)]. *)
Definition response_json (r : promise Response) : promise value :=
  match r with
  | Fulfilled resp =>
      match JSON_parse (response_text resp) with
      | Ok v => Fulfilled v
      | Throw e => Rejected e
      end
  | Rejected e => Rejected e
  | Pending => Pending
  end.

(** The body of [this.requests[key]] up to its first suspension;
    [call] is [api[key]]. *)
Definition request (this : APIService) (key : string) (call : func)
    (input : value) : started :=
  if tunnel_flag (config this) then
    let url := "/" ++ name this ++ "/" ++ key in
    let init := {| init_method := "POST";
                   init_body := JSON_stringify input;
                   init_headers := [("Content-Type", "application/json")] |} in
    Follows [Fetch url init] (response_json (fetch url init))
  else
    match property_of (mocks this) key with
    | Some _ => Armed (delay (config this))
    | None => Follows [CallLive key input] (promise_of (call input))
    end.

(** The timer callback [() => resolve(Promise.resolve(this.mocks[key](input)))];
    [this] is the service as it is when the timer fires.  An exception
    here escapes the callback: [resolve] is not reached and the promise
    stays pending.  Under a name of [Object.prototype] for which
    [this.mocks] has no function of its own, the call is that of the
    member, with [this.mocks] as receiver. *)
Definition timer_callback (this : APIService) (key : string) (input : value)
    : list effect * promise value :=
  match property_of (mocks this) key with
  | None => ([Uncaught not_a_function], Pending)
  | Some (Own mock) =>
      match mock input with
      | Returns v => ([CallMock key input], Fulfilled v)
      | ReturnsPromise p => ([CallMock key input], p)
      | Throws e => ([CallMock key input; Uncaught e], Pending)
      end
  | Some (Member member) =>
      match Object_prototype_call member (Some (mocks this)) input with
      | Returns v => ([], Fulfilled v)
      | ReturnsPromise p => ([], p)
      | Throws e => ([Uncaught e], Pending)
      end
  end.

(** What the caller of a wrapped request sees once the first stretch
    [s] of the call is over and, if it armed a timer, the timer has
    fired on the service as it is by then, [later]. *)
Definition fired (later : APIService) (key : string) (input : value)
    (s : started) : list effect * promise value :=
  match s with
  | Follows effects p => (effects, p)
  | Armed ms =>
      let (effects, p) := timer_callback later key input in
      (SetTimeout ms :: effects, p)
  end.

(** A call of [this.requests[key]] followed to the end, when the service
    is not touched while the timer is pending. *)
Definition dispatch (this : APIService) (key : string) (call : func)
    (input : value) : list effect * promise value :=
  match request this key call input with
  | Follows effects p => (effects, p)
  | Armed ms =>
      let (effects, p) := timer_callback this key input in
      (SetTimeout ms :: effects, p)
  end.

(** [service.requests[key](input)] for a key of [api]; [None] when
    [key] is not one. *)
Definition requests (this : APIService) (key : string)
    : option (value -> list effect * promise value) :=
  match assoc key (api this) with
  | Some call => Some (dispatch this key call)
  | None => None
  end.

End Service.

(** ** src/index.ts: buildURL *)

Definition buildURL (url : string) (input : value) : string :=
  if truthy input then
    fold_left
      (fun res key =>
         replace res ("/:" ++ key ++ "/") ("/" ++ ToString (get input key) ++ "/"))
      (Object_keys input) url
  else url.

(** [metaRequest(call, inputs).path]: a string template goes through
    [buildURL], a function is used as it is. *)
Definition metaRequest_path (path : string + (value -> string)) : value -> string :=
  match path with
  | inl template => buildURL template
  | inr f => f
  end.

(** ** src/puppeteer.ts: RequestMock *)

(** What the listener reads from a puppeteer [HTTPRequest]. *)
Record HTTPRequest : Type := {
  request_url : string;
  postData : option string;
  isInterceptResolutionHandled : bool;
}.

Record PuppetCall : Type := { call_input : value; call_output : value }.

(** The first argument of [request.respond]. *)
Record ResponseForRequest : Type := {
  response_code : number;
  contentType : string;
  body : option string;
}.

(** A cooperative intercept resolution with its priority. *)
Inductive resolution : Type :=
| Respond (response : ResponseForRequest) (priority : Z)
| Continue (overrides : list (string * value)) (priority : Z).

Record RequestMock : Type := {
  url : string;
  baseMock : func;
  status : number;
  override : option func;
  calls : list PuppetCall;
}.

(** The fields of a [RequestMock] as the constructor leaves them. *)
Definition RequestMock_init (url : string) (baseMock : func) : RequestMock :=
  {| url := url; baseMock := baseMock; status := Int 200;
     override := None; calls := [] |}.

Definition setResponse (mock : func) (this : RequestMock) : RequestMock :=
  {| url := url this; baseMock := baseMock this; status := status this;
     override := Some mock; calls := calls this |}.

Definition setError (code : number) (mock : func) (this : RequestMock) : RequestMock :=
  {| url := url this; baseMock := baseMock this; status := code;
     override := Some mock; calls := calls this |}.

Definition reset (this : RequestMock) : RequestMock :=
  {| url := url this; baseMock := baseMock this; status := Int 200;
     override := None; calls := calls this |}.

(** [this.calls.push(call)] *)
Definition push_call (call : PuppetCall) (this : RequestMock) : RequestMock :=
  {| url := url this; baseMock := baseMock this; status := status this;
     override := override this; calls := calls this ++ [call] |}.

(** [this.override || this.baseMock] *)
Definition responder (this : RequestMock) : func :=
  match override this with
  | Some mock => mock
  | None => baseMock this
  end.

(** [request.postData() || "{}"] *)
Definition body_text (request : HTTPRequest) : string :=
  match postData request with
  | Some s => if String.eqb s "" then "{}" else s
  | None => "{}"
  end.

(** Where the listener stands when it first yields. *)
Inductive begun : Type :=
| Returned (r : option resolution)
| Failed (e : value)
| Suspended (input : value)
| Resumes (input output : value).

(** How a run of the listener ends. *)
Inductive verdict : Type :=
| Ignored
| Resolved (r : resolution)
| Rejects (e : value)
| Hangs.

Section Listener.

Context {rt : Runtime}.

(** The listener up to and including [await (...)(input)]. *)
Definition listener_begin (this : RequestMock) (request : HTTPRequest) : begun :=
  if isInterceptResolutionHandled request then Returned None
  else if endsWith (request_url request) (url this) then
    match JSON_parse (body_text request) with
    | Throw e => Failed e
    | Ok input =>
        match promise_of (responder this input) with
        | Fulfilled output => Resumes input output
        | Rejected e => Failed e
        | Pending => Suspended input
        end
    end
  else if isInterceptResolutionHandled request then Returned None
  else Returned (Some (Continue [] (-1))).

(** The listener after the [await]; [this] and [request] are the
    interceptor and the request as they are by then. *)
Definition listener_resume (this : RequestMock) (request : HTTPRequest)
    (input output : value) : RequestMock * verdict :=
  if isInterceptResolutionHandled request then (this, Ignored)
  else
    (push_call {| call_input := input; call_output := output |} this,
     Resolved (Respond {| response_code := status this;
                          contentType := "application/json";
                          body := JSON_stringify output |} 0)).

(** The request with the resolution flag as it reads after the await. *)
Definition seen_later (request : HTTPRequest) (handled : bool) : HTTPRequest :=
  {| request_url := request_url request; postData := postData request;
     isInterceptResolutionHandled := handled |}.

(** One run of the listener during which the interceptor is not touched;
    [handledLater] is what [isInterceptResolutionHandled()] returns once
    the responder has settled. *)
Definition listener (this : RequestMock) (request : HTTPRequest)
    (handledLater : bool) : RequestMock * verdict :=
  match listener_begin this request with
  | Returned None => (this, Ignored)
  | Returned (Some r) => (this, Resolved r)
  | Failed e => (this, Rejects e)
  | Suspended _ => (this, Hangs)
  | Resumes input output =>
      listener_resume this (seen_later request handledLater) input output
  end.

(** Everything that can change a [RequestMock] after construction: the
    three mutators and a listener run passing its [await]. *)
Inductive action : Type :=
| DoSetResponse (mock : func)
| DoSetError (code : number) (mock : func)
| DoReset
| DoResume (request : HTTPRequest) (input output : value).

Definition act (this : RequestMock) (a : action) : RequestMock :=
  match a with
  | DoSetResponse mock => setResponse mock this
  | DoSetError code mock => setError code mock this
  | DoReset => reset this
  | DoResume request input output =>
      fst (listener_resume this request input output)
  end.

Definition after (this : RequestMock) (l : list action) : RequestMock :=
  fold_left act l this.

Definition is_resume (a : action) : bool :=
  match a with
  | DoResume _ _ _ => true
  | _ => false
  end.


End Listener.

(** ** src/puppeteer.ts: mockAPI *)

(** The page: whether interception is on, and the objects whose
    [listener] is registered for ["request"], in registration order. *)
Record Page : Type := {
  requestInterception : bool;
  request_listeners : list nat;
}.

(** The page and the [RequestMock] objects allocated so far; an object
    is named by its position in [heap]. *)
Record World : Type := { page : Page; heap : list RequestMock }.

(** [page.setRequestInterception(value)] *)
Definition setRequestInterception (value : bool) (w : World) : World :=
  {| page := {| requestInterception := value;
                request_listeners := request_listeners (page w) |};
     heap := heap w |}.

(** [new RequestMock(page, url, baseMock)]: allocates the object and
    registers its listener with [page.on("request", this.listener)]. *)
Definition new_RequestMock (url : string) (baseMock : func) (w : World)
    : World * nat :=
  let id := length (heap w) in
  ({| page := {| requestInterception := requestInterception (page w);
                 request_listeners := request_listeners (page w) ++ [id] |};
      heap := heap w ++ [RequestMock_init url baseMock] |}, id).

(** [{...o, [key]: x}] *)
Fixpoint with_key {A} (key : string) (x : A) (o : list (string * A))
    : list (string * A) :=
  match o with
  | [] => [(key, x)]
  | (k, y) :: rest =>
      if String.eqb k key then (k, x) :: rest else (k, y) :: with_key key x rest
  end.

(** [() => ({})] *)
Definition empty_mock : func := fun _ => Returns empty_object.

Section Interception.

Context {rt : Runtime}.

(** [service.mocks[key] || (() => ({}))].  A member of
    [Object.prototype] found by [service.mocks[key]] is truthy and is
    what the interceptor gets; the listener calls it as a plain
    function, without receiver. *)
Definition base_responder (service : APIService) (key : string) : func :=
  match property_of (mocks service) key with
  | Some (Own mock) => mock
  | Some (Member member) => Object_prototype_call member None
  | None => empty_mock
  end.

(** One round of the [reduce] in [mockAPI]: a new interceptor for [key],
    put under [key] in the [ServiceMock] built so far. *)
Definition mockAPI_step (service : APIService)
    (acc : World * list (string * nat)) (key : string)
    : World * list (string * nat) :=
  let (w', id) :=
    new_RequestMock (name service ++ "/" ++ key) (base_responder service key)
      (fst acc) in
  (w', with_key key id (snd acc)).

(** [mockAPI(service, page)]; returns the service and the world as the
    call leaves them, and the [ServiceMock]. *)
Definition mockAPI (service : APIService) (w : World)
    : APIService * World * list (string * nat) :=
  let (w', service_mock) :=
    fold_left (mockAPI_step service) (request_keys service)
      (setRequestInterception true w, []) in
  (service, w', service_mock).

(** Every entry of the [ServiceMock] names the interceptor constructed
    for its key, and that interceptor's listener is registered. *)
Definition names_interceptors (service : APIService) (w : World)
    (sm : list (string * nat)) : Prop :=
  forall k id, assoc k sm = Some id ->
    heap w !! id = Some (RequestMock_init (name service ++ "/" ++ k)
                           (base_responder service k)) /\
    In id (request_listeners (page w)).

End Interception.

(** ** The pact layer: setupInteractionBuilders *)

(** What [setupInteractionBuilders(service)] does to the service: every
    builder captures [service.mocks[key]] for its key of [service.meta]
    (the keys of [api]), then [service.mocks = {}].  The interaction a
    builder assembles is not modelled. *)
Definition setupInteractionBuilders (service : APIService)
    : APIService * list (string * option property) :=
  let builders :=
    fold_left (fun interactions key =>
                 with_key key (property_of (mocks service) key) interactions)
      (meta_keys service) [] in
  ({| name := name service; api := api service; mocks := ∅;
      config := config service |}, builders).

(** ** A small runtime to run the code on *)

(** An instance of the runtime for the examples below.  [stringify]
    serialises the value tree compactly; [parse] reads back the texts of
    the empty object, the empty array and the three keywords and rejects
    every other text; [echo] answers every request with status 200 and
    the request body as response body; of the members of
    [Object.prototype], [member_call] has [toString] as JavaScript has
    it ([[object Object]] on an object, [[object Undefined]] without
    receiver) and throws for every other. *)
Module Sample.

Definition hex_digit (n : N) : ascii :=
  ascii_of_N (if N.ltb n 10 then 48 + n else 87 + n).

(** One character inside a JSON string literal. *)
Definition escape (c : ascii) : string :=
  let n := N_of_ascii c in
  if N.eqb n 34 then String "\" (String c "")
  else if N.eqb n 92 then "\\"
  else if N.eqb n 8 then "\b"
  else if N.eqb n 9 then "\t"
  else if N.eqb n 10 then "\n"
  else if N.eqb n 12 then "\f"
  else if N.eqb n 13 then "\r"
  else if N.ltb n 32 then
    "\u00" ++ String (hex_digit (N.div n 16)) (String (hex_digit (N.modulo n 16)) "")
  else String c "".

Fixpoint escaped (s : string) : string :=
  match s with
  | EmptyString => ""
  | String c rest => escape c ++ escaped rest
  end.

Definition quote (s : string) : string :=
  String (ascii_of_N 34) (escaped s ++ String (ascii_of_N 34) "").

Fixpoint stringify (v : value) : option string :=
  match v with
  | VUndefined => None
  | VNull => Some "null"
  | VBool true => Some "true"
  | VBool false => Some "false"
  | VNum (Int z) => Some (number_to_string (Int z))
  | VNum NaN => Some "null"
  | VStr s => Some (quote s)
  | VArr items =>
      Some ("[" ++ join "," (List.map (fun x => match stringify x with
                                                | Some t => t
                                                | None => "null"
                                                end) items) ++ "]")
  | VObj fields =>
      Some ("{" ++ join ","
                     (List.concat
                        (List.map (fun kx => match stringify (snd kx) with
                                             | Some t => [quote (fst kx) ++ ":" ++ t]
                                             | None => []
                                             end) fields)) ++ "}")
  end.

Definition syntax_error : value := VStr "SyntaxError".

Definition parse (s : string) : outcome value :=
  if String.eqb s "{}" then Ok empty_object
  else if String.eqb s "[]" then Ok (VArr [])
  else if String.eqb s "null" then Ok VNull
  else if String.eqb s "true" then Ok (VBool true)
  else if String.eqb s "false" then Ok (VBool false)
  else Throw syntax_error.

Definition echo (url : string) (init : RequestInit) : promise Response :=
  Fulfilled {| response_status := 200;
               response_text := match init_body init with
                                | Some t => t
                                | None => ""
                                end |}.

Definition member_call (member : string) (receiver : option (gmap string func))
    (input : value) : completion :=
  if String.eqb member "toString" then
    Returns (VStr match receiver with
                  | Some _ => "[object Object]"
                  | None => "[object Undefined]"
                  end)
  else Throws (VStr "TypeError").

Definition runtime : Runtime :=
  {| JSON_parse := parse; JSON_stringify := stringify; fetch := echo;
     Object_prototype_call := member_call |}.

End Sample.

(** ** Sample services *)

(** The registry [{getUsers: () => []}] with the substitute
    [{getUsers: () => [{id: "1"}]}] of the specification's scenario, and
    variations of its configuration. *)
Module Users.

Definition live : func := fun _ => ReturnsPromise (Fulfilled (VArr [])).

Definition substitute : func := fun _ => Returns (VArr [VObj [("id", VStr "1")]]).

Definition throwing : func := fun _ => Throws (VStr "boom").

Definition api : list (string * func) := [("getUsers", live)].

Definition config_with (tunnel : option bool) (m : option (gmap string func))
    (ms : option number) : option Config :=
  Some {| integrationMocks := tunnel; config_mocks := m; timeout := ms |}.

(** [new APIService("users", api, {mocks})] *)
Definition mocked : APIService :=
  new_APIService "users" api
    (config_with None (Some {["getUsers" := substitute]}) None).

(** [new APIService("users", api, {mocks, timeout: 0})] *)
Definition mocked_timeout_0 : APIService :=
  new_APIService "users" api
    (config_with None (Some {["getUsers" := substitute]}) (Some (Int 0))).

(** [new APIService("users", api, {mocks, integrationMocks: true})] *)
Definition tunnelled : APIService :=
  new_APIService "users" api
    (config_with (Some true) (Some {["getUsers" := substitute]}) None).

(** [new APIService("users", api)] *)
Definition plain : APIService := new_APIService "users" api None.

(** Two requests, a substitute for the first only. *)
Definition two_requests : APIService :=
  new_APIService "users" [("getUsers", live); ("addUser", live)]
    (config_with None (Some {["getUsers" := substitute]}) None).

(** A page nothing has been done to, and no interceptor yet. *)
Definition blank : World :=
  {| page := {| requestInterception := false; request_listeners := [] |};
     heap := [] |}.

(** [new APIService("users", api, {mocks: {getUsers: () => { throw "boom" }}})] *)
Definition failing : APIService :=
  new_APIService "users" api
    (config_with None (Some {["getUsers" := throwing]}) None).

(** An error responder: [async () => ({error: "unavailable"})] *)
Definition unavailable : func :=
  fun _ => ReturnsPromise (Fulfilled (VObj [("error", VStr "unavailable")])).

(** [new APIService("text", {toString: live})]: a request named as a
    member of [Object.prototype], and no substitute. *)
Definition text : APIService := new_APIService "text" [("toString", live)] None.

End Users.

(** ** src/index.ts: filterFields and weedOutFields *)

(** [input || {}] *)
Definition or_empty_object (input : value) : value :=
  if truthy input then input else empty_object.

(** [fields.includes(key.toString())] *)
Definition includes (fields : list string) (key : string) : bool :=
  existsb (String.eqb key) fields.

(** What the two functions put under a key.  The value is read from
    the accumulator [res] of the [reduce], as the source has it, and
    [res] starts as [{}] and holds nothing but what was read from it
    before: a value is [undefined] or, read through the prototype, the
    member of [Object.prototype] of some name. *)
Inductive picked : Type :=
| Undefined
| Prototype_member (member : string).

(** [res[key]] *)
Definition read (res : list (string * picked)) (key : string) : picked :=
  match assoc key res with
  | Some x => x
  | None => if inherited key then Prototype_member key else Undefined
  end.

(** [filterFields(fields)(input)]; the result is given by its
    properties, in order. *)
Definition filterFields (fields : list string) (input : value)
    : list (string * picked) :=
  fold_left
    (fun res key =>
       if includes fields key then with_key key (read res key) res
       else res)
    (Object_keys (or_empty_object input)) [].

(** [weedOutFields(fields)(input)] *)
Definition weedOutFields (fields : list string) (input : value)
    : list (string * picked) :=
  fold_left
    (fun res key =>
       if includes fields key then res
       else with_key key (read res key) res)
    (Object_keys (or_empty_object input)) [].

(** [{}[key]]: what both functions leave under a key. *)
Definition read_of_empty (key : string) : picked :=
  if inherited key then Prototype_member key else Undefined.

(** ** Values whose text is exact *)

(** The values a template literal can convert.  An object with a
    property of its own named [toString] has nothing callable under
    that name (no value of [Js.value] is a function), and its
    conversion throws a [TypeError], which [ToString] does not follow;
    an array is converted through its items. *)
Fixpoint convertible (v : value) : bool :=
  match v with
  | VArr items => forallb convertible items
  | VObj fields => negb (existsb (fun kx => String.eqb (fst kx) "toString") fields)
  | _ => true
  end.

(** Every value a run of [buildURL] converts is convertible. *)
Definition convertible_fields (fields : list (string * value)) : bool :=
  forallb (fun kx => convertible (snd kx)) fields.

(** The values of which [ToString] is the text JavaScript gives: the
    primitive values, a number being [NaN] or an integer below [2^53] in
    absolute value, which a double holds exactly and prints in full. *)
Definition primitive_text (v : value) : bool :=
  match v with
  | VUndefined | VNull | VBool _ | VStr _ => true
  | VNum NaN => true
  | VNum (Int z) => Z.ltb (Z.abs z) (2 ^ 53)
  | VArr _ | VObj _ => false
  end.

(** ** Texts with and without a slot *)

Fixpoint has_slash (s : string) : bool :=
  match s with
  | EmptyString => false
  | String c rest => Ascii.eqb c "/" || has_slash rest
  end.

(** Somewhere in [s] there is [/:] with a [/] after it: the only places
    where a pattern [/:key/] can occur. *)
Fixpoint slotted (s : string) : bool :=
  match s with
  | EmptyString => false
  | String c rest =>
      (Ascii.eqb c "/"
       && match rest with
          | String d rest' => Ascii.eqb d ":" && has_slash rest'
          | EmptyString => false
          end)
      || slotted rest
  end.

Fixpoint dollar_free (s : string) : bool :=
  match s with
  | EmptyString => true
  | String c rest => negb (Ascii.eqb c "$") && dollar_free rest
  end.

(** ** src/puppeteer.ts: the last getter *)

(** [this.calls[this.calls.length - 1]]: what [last] resolves to, read
    from the interceptor as it is when the page's network is idle. *)
Definition last_call (this : RequestMock) : option PuppetCall :=
  last (calls this).

(** ** The pact layer: matchers and merging *)

(** The pure functions of the pact layer.  Their values are those of
    [Js.value] and functions of no argument, which is all the code calls
    ([getValue]); an object is a plain object, given by its own
    properties, each key once, in property order. *)
Module Pact.

Inductive jsval : Type :=
| JUndefined
| JNull
| JBool (b : bool)
| JNum (n : number)
| JStr (s : string)
| JArr (items : list jsval)
| JObj (fields : list (string * jsval))
| JFun (result : jsval).

(** What [Object.keys(null)] and [Object.keys(undefined)] throw. *)
Definition type_error : value := VStr "TypeError".

(** What [new Array(n)] throws for an [n] that is no array length. *)
Definition range_error : value := VStr "RangeError".

(** ToBoolean. *)
Definition truthy (v : jsval) : bool :=
  match v with
  | JUndefined | JNull => false
  | JBool b => b
  | JNum n => number_truthy n
  | JStr s => negb (String.eqb s "")
  | JArr _ | JObj _ | JFun _ => true
  end.

(** The own enumerable properties, in the order of [Object.keys]. *)
Definition entries (v : jsval) : list (string * jsval) :=
  match v with
  | JObj fields => fields
  | JArr items => imap (fun i x => (pretty i, x)) items
  | JStr s => imap (fun i c => (pretty i, JStr c)) (chars s)
  | _ => []
  end.

(** [v[key]] for a [v] that is neither [null] nor [undefined] and a
    [key] that is one of its own or no name of [Object.prototype]. *)
Definition get (v : jsval) (key : string) : jsval :=
  match assoc key (entries v) with
  | Some x => x
  | None => JUndefined
  end.

(** [key in v] for an object [v]: a property of its own, or a member
    of [Object.prototype]. *)
Definition has_key (key : string) (v : jsval) : bool :=
  match assoc key (entries v) with
  | Some _ => true
  | None => inherited key
  end.

(** No object met on the way down the objects of [v] has a property of
    its own named [__proto__].  An assignment under that name reaches
    the setter of [Object.prototype] and changes the prototype of the
    object assigned to, which the values of this module do not record;
    the statements about [deepMerge] are for values that are free of
    it. *)
Fixpoint proto_free (v : jsval) : bool :=
  match v with
  | JObj fields =>
      forallb (fun kx : string * jsval =>
                 let (key, x) := kx in
                 negb (String.eqb key "__proto__") && proto_free x)
        fields
  | _ => true
  end.

(** [isObject(item)], as a condition. *)
Definition isObject (item : jsval) : bool :=
  match item with
  | JObj _ => true
  | _ => false
  end.

(** [isMatcher(matcher)] *)
Definition isMatcher (matcher : jsval) : bool :=
  truthy matcher
  && match get matcher "getValue" with
     | JFun _ => true
     | _ => false
     end.

(** [isArrayMatcher(matcher)], as a condition. *)
Definition isArrayMatcher (matcher : jsval) : bool :=
  isMatcher matcher && truthy (get matcher "min").

(** [deepMerge(target, source)]; [output] starts as
    [Object.assign({}, target)].  Where [key in target] holds through
    the prototype only, [target[key]] is a function, of which
    [deepMerge] copies no property and which is no object for
    [isObject], so that the merge is the empty object. *)
Fixpoint deepMerge (target source : jsval) {struct source} : jsval :=
  JObj
    (if isObject target then
       match source with
       | JObj fields =>
           fold_left
             (fun output (kx : string * jsval) =>
                let (key, x) := kx in
                with_key key
                  (if isObject x then
                     if has_key key target then
                       match assoc key (entries target) with
                       | Some y => deepMerge y x
                       | None => JObj []
                       end
                     else x
                   else x)
                  output)
             fields (entries target)
       | _ => entries target
       end
     else entries target).

(** [buildPath(field, path)] *)
Definition buildPath (field : string) (path : option string) : string :=
  match path with
  | Some p => if String.eqb p "" then field else p ++ "." ++ field
  | None => field
  end.

(** The [options] of [matcherize] and [reduceToMatchers]. *)
Record MatchOptions : Type := {
  path : option string;
  noMatchFields : option (list string);
  exclusiveMatchFields : option (list string);
}.

(** [options?.path] *)
Definition path_of (options : option MatchOptions) : option string :=
  match options with
  | Some o => path o
  | None => None
  end.

(** [{...options, path}] *)
Definition with_path (options : option MatchOptions) (p : string)
    : option MatchOptions :=
  Some {| path := Some p;
          noMatchFields := match options with
                           | Some o => noMatchFields o
                           | None => None
                           end;
          exclusiveMatchFields := match options with
                                  | Some o => exclusiveMatchFields o
                                  | None => None
                                  end |}.

(** [options?.noMatchFields?.includes("*")] *)
Definition matches_nothing (options : option MatchOptions) : bool :=
  match options with
  | Some {| noMatchFields := Some l |} => existsb (String.eqb "*") l
  | _ => false
  end.

(** The value [isMatcherizable] has in [reduceToMatchers] for the field
    at path [p]. *)
Definition isMatcherizable (options : option MatchOptions) (p : string) : bool :=
  match options with
  | Some {| exclusiveMatchFields := Some (f :: l) |} =>
      existsb (fun field => String.eqb field p) (f :: l)
  | Some {| noMatchFields := Some l |} =>
      negb (existsb (fun field => String.eqb field p) l)
  | _ => true
  end.

(** The pact library: [Matchers.somethingLike]. *)
Class Library : Type := {
  somethingLike : jsval -> outcome jsval;
}.

(** The array [new Array(min)] has as many places as [min] says when
    [min] is a number, and one place otherwise. *)
Definition places (min : jsval) : outcome nat :=
  match min with
  | JNum (Int z) =>
      if (Z.leb 0 z && Z.ltb z 4294967296)%bool then Ok (Z.to_nat z)
      else Throw range_error
  | JNum NaN => Throw range_error
  | _ => Ok 1
  end.

(** A [reduce] that stops at the first exception. *)
Section FoldOutcome.

Context {A B : Type}.
Variable f : A -> B -> outcome A.

Fixpoint fold_outcome (l : list B) (a : A) : outcome A :=
  match l with
  | [] => Ok a
  | x :: rest =>
      match f a x with
      | Ok a' => fold_outcome rest a'
      | Throw e => Throw e
      end
  end.

End FoldOutcome.

Definition outcome_map {A B : Type} (g : A -> B) (o : outcome A) : outcome B :=
  match o with
  | Ok a => Ok (g a)
  | Throw e => Throw e
  end.

(** [matcher.getValue()] handed to [unwrap], when [getValue] is a
    function. *)
Section Called.

Variable unwrap : jsval -> outcome jsval.

Fixpoint called (l : list (string * jsval)) : option (outcome jsval) :=
  match l with
  | [] => None
  | (k, x) :: rest =>
      if String.eqb k "getValue" then
        match x with
        | JFun result => Some (unwrap result)
        | _ => None
        end
      else called rest
  end.

End Called.

(** [Array.from(new Array(min).keys()).map(() => unwrapped)] *)
Definition copies (min : jsval) (unwrapped : outcome jsval) : outcome jsval :=
  match places min with
  | Throw e => Throw e
  | Ok O => Ok (JArr [])
  | Ok (S n) => outcome_map (fun x => JArr (repeat x (S n))) unwrapped
  end.

(** [getMatcherValue(matcher)] *)
Fixpoint getMatcherValue (matcher : jsval) : outcome jsval :=
  match matcher with
  | JObj fields =>
      match called getMatcherValue fields with
      | Some unwrapped =>
          if truthy (get matcher "min") then copies (get matcher "min") unwrapped
          else unwrapped
      | None =>
          outcome_map JObj
            (fold_outcome
               (fun values (kx : string * jsval) =>
                  let (key, x) := kx in
                  outcome_map (fun y => with_key key y values) (getMatcherValue x))
               fields [])
      end
  | JArr items =>
      outcome_map JArr
        (fold_outcome
           (fun done x => outcome_map (fun y => (done ++ [y])%list) (getMatcherValue x))
           items [])
  | JNull => Throw type_error
  | _ => Ok matcher
  end.

Section Matchers.

Context {pact : Library}.

(** [matcherize(item, options)], with [reduceToMatchers] as [reduce]. *)
Definition matcherize_with
    (reduce : jsval -> option MatchOptions -> outcome jsval)
    (item : jsval) (options : option MatchOptions) : outcome jsval :=
  if matches_nothing options then Ok item
  else
    match item with
    | JNull | JObj _ => reduce item options
    | JArr [] => somethingLike item
    | JArr items =>
        outcome_map JArr
          (fold_outcome
             (fun done subitem =>
                outcome_map (fun y => (done ++ [y])%list) (reduce subitem options))
             items [])
    | _ => somethingLike item
    end.

(** One round of the [reduce] in [reduceToMatchers], for the field
    [key] with value [x] and [matcherize] as given. *)
Definition reduce_field
    (matcherize : jsval -> option MatchOptions -> outcome jsval)
    (options : option MatchOptions) (matchers : list (string * jsval))
    (key : string) (x : jsval) : outcome (list (string * jsval)) :=
  let p := buildPath key (path_of options) in
  if isMatcherizable options p then
    outcome_map (fun y => with_key key y matchers) (matcherize x (with_path options p))
  else Ok (with_key key x matchers).

(** [reduceToMatchers(item, options)] *)
Fixpoint reduceToMatchers (item : jsval) (options : option MatchOptions)
    {struct item} : outcome jsval :=
  match item with
  | JUndefined | JNull => Throw type_error
  | JObj fields =>
      outcome_map JObj
        (fold_outcome
           (fun matchers (kx : string * jsval) =>
              let (key, x) := kx in
              reduce_field (matcherize_with reduceToMatchers) options matchers key x)
           fields [])
  | JArr items =>
      outcome_map (fun r => JObj (snd r))
        (fold_outcome
           (fun r x =>
              outcome_map (fun matchers => (S (fst r), matchers))
                (reduce_field (matcherize_with reduceToMatchers) options (snd r)
                   (pretty (fst r)) x))
           items (O, []))
  | JStr s =>
      outcome_map JObj
        (fold_outcome
           (fun matchers (kx : string * jsval) =>
              let (key, x) := kx in
              reduce_field
                (fun item options =>
                   if matches_nothing options then Ok item else somethingLike item)
                options matchers key x)
           (entries item) [])
  | JBool _ | JNum _ | JFun _ => Ok (JObj [])
  end.

(** [matcherize(item, options)] *)
Definition matcherize : jsval -> option MatchOptions -> outcome jsval :=
  matcherize_with reduceToMatchers.

End Matchers.

(** *** Shapes of values *)

(** The value a key of the source leaves in the result of [deepMerge]. *)
Definition merged (target : jsval) (key : string) (x : jsval) : jsval :=
  if isObject x then
    match assoc key (entries target) with
    | Some y => deepMerge y x
    | None => if inherited key then JObj [] else x
    end
  else x.

Fixpoint distinct (keys : list string) : bool :=
  match keys with
  | [] => true
  | k :: rest => negb (existsb (String.eqb k) rest) && distinct rest
  end.

(** Data with neither [null] nor a function in it. *)
Fixpoint plain (v : jsval) : bool :=
  match v with
  | JNull | JFun _ => false
  | JArr items => forallb plain items
  | JObj fields =>
      distinct (List.map fst fields) && forallb (fun kx => plain (snd kx)) fields
  | _ => true
  end.

(** Booleans, numbers and strings. *)
Definition scalar (v : jsval) : bool :=
  match v with
  | JBool _ | JNum _ | JStr _ => true
  | _ => false
  end.

(** Records of scalars, of records and of lists of records: booleans,
    numbers, strings, the empty array, arrays of objects, and objects,
    all the way down. *)
Fixpoint record_like (v : jsval) : bool :=
  match v with
  | JBool _ | JNum _ | JStr _ => true
  | JArr items => forallb (fun x => isObject x && record_like x) items
  | JObj fields =>
      distinct (List.map fst fields)
      && forallb (fun kx => record_like (snd kx)) fields
  | _ => false
  end.

(** Values without own enumerable properties that are not [null] or
    [undefined]: [Object.keys] gives the empty list for them. *)
Definition keyless (v : jsval) : bool :=
  match v with
  | JBool _ | JNum _ | JFun _ => true
  | _ => false
  end.

(** What an operation returned, when it did return. *)
Definition returned (o : outcome jsval) : jsval :=
  match o with
  | Ok v => v
  | Throw _ => JUndefined
  end.

(** The matcher [Matchers.somethingLike(v)] of pact-js. *)
Definition like (v : jsval) : jsval :=
  JObj [("contents", v); ("getValue", JFun v);
        ("json_class", JStr "Pact::SomethingLike")].

(** No restriction on the fields to match. *)
Definition unrestricted (options : option MatchOptions) : bool :=
  match options with
  | Some {| noMatchFields := None; exclusiveMatchFields := None |} => true
  | Some _ => false
  | None => true
  end.

End Pact.

(** A pact library for the examples: [somethingLike] as pact-js has it,
    refusing [undefined], [null] and functions. *)
Definition sample_pact : Pact.Library :=
  {| Pact.somethingLike := fun v =>
       match v with
       | Pact.JUndefined | Pact.JNull | Pact.JFun _ => Throw (VStr "MatcherError")
       | _ => Ok (Pact.like v)
       end |}.

(** * Properties *)

(** ** Path templates *)

Example buildURL_ex1 :
  buildURL "/users/:id/posts" (VObj [("id", VStr "7")]) = "/users/7/posts".
Proof. reflexivity. Qed.
Example buildURL_ex2 :
  buildURL "/users/:id" (VObj [("id", VStr "7")]) = "/users/:id".
Proof. reflexivity. Qed.
Example buildURL_ex3 :
  buildURL "/u/:id/:id/" (VObj [("id", VNum (Int 7))]) = "/u/7/:id/".
Proof. reflexivity. Qed.
Example buildURL_ex4 :
  buildURL "/u/:id/x" (VObj [("id", VNum (Int (10 ^ 21)))]) = "/u/1e+21/x".
Proof. vm_compute. reflexivity. Qed.

Example number_to_string_ex1 :
  number_to_string (Int (2 ^ 60)) = "1152921504606847000" /\
  number_to_string (Int (2 ^ 70)) = "1.1805916207174113e+21" /\
  number_to_string (Int (- 10 ^ 21)) = "-1e+21" /\
  number_to_string (Int 9007199254740991) = "9007199254740991".
Proof. vm_compute. repeat split. Qed.

Example stringify_ex1 :
  Sample.stringify
    (VArr [VObj []; VUndefined; VObj [("id", VNum (Int (-3))); ("x", VUndefined)]])
  = Some (String.concat (Sample.quote "id") ["[{},null,{"; ":-3}]"]).
Proof. reflexivity. Qed.

(** ** Dispatch *)

Section DispatchFacts.

Context {rt : Runtime}.

Lemma requests_registered this key call :
  assoc key (api this) = Some call ->
  requests this key = Some (dispatch this key call).
Proof. intros H. unfold requests. now rewrite H. Qed.

Lemma request_tunnel this key call input :
  tunnel_flag (config this) = true ->
  request this key call input =
    let url := "/" ++ name this ++ "/" ++ key in
    let init := {| init_method := "POST"; init_body := JSON_stringify input;
                   init_headers := [("Content-Type", "application/json")] |} in
    Follows [Fetch url init] (response_json (fetch url init)).
Proof. intros H. unfold request. now rewrite H. Qed.

Lemma property_of_own o key f :
  o !! key = Some f -> property_of o key = Some (Own f).
Proof. intros H. unfold property_of. now rewrite H. Qed.

Lemma property_of_member o key :
  o !! key = None -> inherited key = true -> property_of o key = Some (Member key).
Proof. intros H Hi. unfold property_of. now rewrite H, Hi. Qed.

Lemma property_of_undefined o key :
  o !! key = None -> inherited key = false -> property_of o key = None.
Proof. intros H Hi. unfold property_of. now rewrite H, Hi. Qed.

Lemma property_of_empty key :
  property_of ∅ key = if inherited key then Some (Member key) else None.
Proof. unfold property_of. now rewrite lookup_empty. Qed.

Lemma request_substitute this key call input mock :
  tunnel_flag (config this) = false ->
  mocks this !! key = Some mock ->
  request this key call input = Armed (delay (config this)).
Proof.
  intros Hf Hm. unfold request. now rewrite Hf, (property_of_own _ _ _ Hm).
Qed.

Lemma request_live this key call input :
  tunnel_flag (config this) = false ->
  mocks this !! key = None ->
  inherited key = false ->
  request this key call input = Follows [CallLive key input] (promise_of (call input)).
Proof.
  intros Hf Hm Hi. unfold request.
  now rewrite Hf, (property_of_undefined _ _ Hm Hi).
Qed.

(** Under a name of [Object.prototype] the timer is armed although the
    service has no substitute. *)
Lemma request_member this key call input :
  tunnel_flag (config this) = false ->
  mocks this !! key = None ->
  inherited key = true ->
  request this key call input = Armed (delay (config this)).
Proof.
  intros Hf Hm Hi. unfold request.
  now rewrite Hf, (property_of_member _ _ Hm Hi).
Qed.

Lemma timer_callback_substitute this key input mock :
  mocks this !! key = Some mock ->
  timer_callback this key input =
    match mock input with
    | Returns v => ([CallMock key input], Fulfilled v)
    | ReturnsPromise p => ([CallMock key input], p)
    | Throws e => ([CallMock key input; Uncaught e], Pending)
    end.
Proof.
  intros Hm. unfold timer_callback. now rewrite (property_of_own _ _ _ Hm).
Qed.

Lemma timer_callback_undefined this key input :
  mocks this !! key = None ->
  inherited key = false ->
  timer_callback this key input = ([Uncaught not_a_function], Pending).
Proof.
  intros Hm Hi. unfold timer_callback.
  now rewrite (property_of_undefined _ _ Hm Hi).
Qed.

Lemma dispatch_fired this key call input :
  dispatch this key call input = fired this key input (request this key call input).
Proof. reflexivity. Qed.

Lemma delay_value config :
  delay config =
    match config with
    | Some {| timeout := Some n |} => if number_truthy n then n else Int 200
    | _ => Int 200
    end.
Proof. reflexivity. Qed.

(** What the pending promise of a substituted request does once the
    timer has fired, by what the substitute does. *)
Lemma dispatch_substitute this key call input mock :
  tunnel_flag (config this) = false ->
  mocks this !! key = Some mock ->
  dispatch this key call input =
    match mock input with
    | Returns v =>
        ([SetTimeout (delay (config this)); CallMock key input], Fulfilled v)
    | ReturnsPromise p =>
        ([SetTimeout (delay (config this)); CallMock key input], p)
    | Throws e =>
        ([SetTimeout (delay (config this)); CallMock key input; Uncaught e], Pending)
    end.
Proof.
  intros Hf Hm. unfold dispatch.
  rewrite (request_substitute _ _ _ _ _ Hf Hm).
  rewrite (timer_callback_substitute _ _ _ _ Hm).
  destruct (mock input); reflexivity.
Qed.

(** C1, as the code has it.  A wrapped request is the closure made for
    its name, and a call of it is routed by priority.  With the tunnel
    flag set it makes one POST of the serialised input to
    [/<service name>/<request name>] and resolves to the parsed response
    body, whatever the substitutes are.  Otherwise, when the service has
    a substitute of its own under the name at the time of the call, it
    arms a timer of the configured timeout if that is truthy and of 200
    milliseconds if not; when the timer fires, the substitute the
    service [later] then has under the name is called on the input and
    the call resolves to what it returns (a value, or the promise it
    returns).  Otherwise, when the name is not that of a member of
    [Object.prototype], it calls the live operation on the input and
    follows its result. *)
Theorem dispatch_routing (this later : APIService) (key : string)
    (call : func) (input : value) :
  assoc key (api this) = Some call ->
  requests this key = Some (dispatch this key call) /\
  dispatch this key call input = fired this key input (request this key call input) /\
  (tunnel_flag (config this) = true ->
     let url := "/" ++ name this ++ "/" ++ key in
     let init := {| init_method := "POST"; init_body := JSON_stringify input;
                    init_headers := [("Content-Type", "application/json")] |} in
     fired later key input (request this key call input) =
       ([Fetch url init], response_json (fetch url init)) /\
     (forall resp v,
         fetch url init = Fulfilled resp ->
         JSON_parse (response_text resp) = Ok v ->
         response_json (fetch url init) = Fulfilled v) /\
     (forall e, fetch url init = Rejected e ->
                response_json (fetch url init) = Rejected e)) /\
  (tunnel_flag (config this) = false ->
     forall mock, mocks this !! key = Some mock ->
       let ms := match config this with
                 | Some {| timeout := Some n |} =>
                     if number_truthy n then n else Int 200
                 | _ => Int 200
                 end in
       request this key call input = Armed ms /\
       forall mock', mocks later !! key = Some mock' ->
         (forall v, mock' input = Returns v ->
            fired later key input (request this key call input) =
              ([SetTimeout ms; CallMock key input], Fulfilled v)) /\
         (forall p, mock' input = ReturnsPromise p ->
            fired later key input (request this key call input) =
              ([SetTimeout ms; CallMock key input], p))) /\
  (tunnel_flag (config this) = false ->
     mocks this !! key = None ->
     inherited key = false ->
     fired later key input (request this key call input) =
       ([CallLive key input], promise_of (call input))).
Proof.
  intros Hreg.
  split; [now apply requests_registered|].
  split; [reflexivity|].
  split; [|split].
  - intros Hf. cbv zeta.
    rewrite (request_tunnel _ _ _ _ Hf). cbv zeta.
    split; [reflexivity|]. split.
    + intros resp v Hresp Hv. unfold response_json. now rewrite Hresp, Hv.
    + intros e He. unfold response_json. now rewrite He.
  - intros Hf mock Hm ms.
    rewrite (request_substitute _ _ _ _ _ Hf Hm), delay_value. fold ms.
    split; [reflexivity|].
    intros mock' Hm'. unfold fired.
    rewrite (timer_callback_substitute _ _ _ _ Hm').
    split; intros r Hr; now rewrite Hr.
  - intros Hf Hm Hi.
    now rewrite (request_live _ _ _ _ Hf Hm Hi).
Qed.

(** C9.  With a substitute for the request and no tunnel flag, a
    configured timeout that is falsy ([0], [NaN]) or absent makes the
    call wait 200 milliseconds; a truthy one is the wait. *)
Theorem falsy_timeout_waits_200 (this : APIService) (cfg : Config)
    (key : string) (call mock : func) (input : value) :
  config this = Some cfg ->
  tunnel_flag (config this) = false ->
  mocks this !! key = Some mock ->
  (timeout cfg = Some (Int 0) ->
     request this key call input = Armed (Int 200)) /\
  (forall n, timeout cfg = Some n -> number_truthy n = false ->
     request this key call input = Armed (Int 200)) /\
  (timeout cfg = None -> request this key call input = Armed (Int 200)) /\
  (forall n, timeout cfg = Some n -> number_truthy n = true ->
     request this key call input = Armed n) /\
  exists effects p,
    dispatch this key call input =
      (SetTimeout (match timeout cfg with
                   | Some n => if number_truthy n then n else Int 200
                   | None => Int 200
                   end) :: effects, p).
Proof.
  intros Hc Hf Hm.
  rewrite (request_substitute _ _ call input _ Hf Hm).
  assert (Hd : delay (config this) =
               match timeout cfg with
               | Some n => if number_truthy n then n else Int 200
               | None => Int 200
               end).
  { rewrite Hc. unfold delay. destruct cfg as [i m [n|]]; reflexivity. }
  rewrite Hd.
  repeat split.
  - intros Ht. now rewrite Ht.
  - intros n Ht Hn. now rewrite Ht, Hn.
  - intros Ht. now rewrite Ht.
  - intros n Ht Hn. now rewrite Ht, Hn.
  - rewrite (dispatch_substitute _ _ call input _ Hf Hm), Hd.
    destruct (mock input); eauto.
Qed.

(** A substitute that returns a rejected promise fails the call. *)
Lemma substitute_rejection_propagates (this : APIService) (key : string)
    (call mock : func) (input e : value) :
  tunnel_flag (config this) = false ->
  mocks this !! key = Some mock ->
  mock input = ReturnsPromise (Rejected e) ->
  snd (dispatch this key call input) = Rejected e.
Proof.
  intros Hf Hm He. rewrite (dispatch_substitute _ _ call input _ Hf Hm).
  now rewrite He.
Qed.

(** A substitute that throws leaves the call pending for ever: the
    exception escapes the timer callback. *)
Lemma substitute_throw_is_lost (this : APIService) (key : string)
    (call mock : func) (input e : value) :
  tunnel_flag (config this) = false ->
  mocks this !! key = Some mock ->
  mock input = Throws e ->
  dispatch this key call input =
    ([SetTimeout (delay (config this)); CallMock key input; Uncaught e], Pending).
Proof.
  intros Hf Hm He. rewrite (dispatch_substitute _ _ call input _ Hf Hm).
  now rewrite He.
Qed.

(** The live path, for comparison: a live operation that throws fails
    the call. *)
Lemma live_throw_propagates (this : APIService) (key : string)
    (call : func) (input e : value) :
  tunnel_flag (config this) = false ->
  mocks this !! key = None ->
  inherited key = false ->
  call input = Throws e ->
  snd (dispatch this key call input) = Rejected e.
Proof.
  intros Hf Hm Hi He. unfold dispatch.
  rewrite (request_live _ _ _ _ Hf Hm Hi). cbn. now rewrite He.
Qed.

End DispatchFacts.

Lemma dispatch_routing_witness :
  fired (rt := Sample.runtime) Users.tunnelled "getUsers" (VObj [])
    (request (rt := Sample.runtime) Users.tunnelled "getUsers" Users.live (VObj [])) =
    ([Fetch "/users/getUsers"
        {| init_method := "POST"; init_body := Some "{}";
           init_headers := [("Content-Type", "application/json")] |}],
     Fulfilled (VObj [])) /\
  fired (rt := Sample.runtime) Users.mocked "getUsers" VUndefined
    (request (rt := Sample.runtime) Users.mocked "getUsers" Users.live VUndefined) =
    ([SetTimeout (Int 200); CallMock "getUsers" VUndefined],
     Fulfilled (VArr [VObj [("id", VStr "1")]])) /\
  fired (rt := Sample.runtime) Users.plain "getUsers" VUndefined
    (request (rt := Sample.runtime) Users.plain "getUsers" Users.live VUndefined) =
    ([CallLive "getUsers" VUndefined], Fulfilled (VArr [])).
Proof.
  split; [|split].
  - destruct (dispatch_routing (rt := Sample.runtime) Users.tunnelled
                Users.tunnelled "getUsers" Users.live (VObj []) eq_refl)
      as (_ & _ & Ht & _ & _).
    destruct (Ht eq_refl) as (Hfired & Hparsed & _).
    rewrite Hfired.
    rewrite (Hparsed {| response_status := 200; response_text := "{}" |} (VObj [])
               eq_refl eq_refl).
    reflexivity.
  - destruct (dispatch_routing (rt := Sample.runtime) Users.mocked
                Users.mocked "getUsers" Users.live VUndefined eq_refl)
      as (_ & _ & _ & Hs & _).
    destruct (Hs eq_refl Users.substitute eq_refl) as [_ Hlater].
    exact (proj1 (Hlater Users.substitute eq_refl) _ eq_refl).
  - destruct (dispatch_routing (rt := Sample.runtime) Users.plain
                Users.plain "getUsers" Users.live VUndefined eq_refl)
      as (_ & _ & _ & _ & Hl).
    exact (Hl eq_refl eq_refl eq_refl).
Defined.

(** C1, where the claim fails.  A request named [toString] of a service
    without substitutes is not sent to the live operation: the routing
    finds the [toString] of [Object.prototype] under the name, arms the
    timer and resolves to what that function returns.  And a substitute
    that is there at the time of the call is not what settles the call:
    when the substitutes are emptied while the timer is pending, the
    timer callback finds no function and the call never settles. *)
Lemma inherited_member_is_taken_for_a_substitute :
  assoc "toString" (api Users.text) = Some Users.live /\
  tunnel_flag (config Users.text) = false /\
  mocks Users.text !! "toString" = None /\
  request (rt := Sample.runtime) Users.text "toString" Users.live VUndefined =
    Armed (Int 200) /\
  requests (rt := Sample.runtime) Users.text "toString" =
    Some (dispatch (rt := Sample.runtime) Users.text "toString" Users.live) /\
  dispatch (rt := Sample.runtime) Users.text "toString" Users.live VUndefined =
    ([SetTimeout (Int 200)], Fulfilled (VStr "[object Object]")) /\
  mocks Users.mocked !! "getUsers" = Some Users.substitute /\
  request (rt := Sample.runtime) Users.mocked "getUsers" Users.live VUndefined =
    Armed (Int 200) /\
  fired (rt := Sample.runtime) (fst (setupInteractionBuilders Users.mocked))
    "getUsers" VUndefined
    (request (rt := Sample.runtime) Users.mocked "getUsers" Users.live VUndefined) =
    ([SetTimeout (Int 200); Uncaught not_a_function], Pending).
Proof. repeat split. Qed.

Lemma falsy_timeout_waits_200_witness :
  request (rt := Sample.runtime) Users.mocked_timeout_0 "getUsers" Users.live
    VUndefined = Armed (Int 200).
Proof.
  exact (proj1 (falsy_timeout_waits_200 (rt := Sample.runtime)
                  Users.mocked_timeout_0
                  {| integrationMocks := None;
                     config_mocks := Some {["getUsers" := Users.substitute]};
                     timeout := Some (Int 0) |}
                  "getUsers" Users.live Users.substitute VUndefined
                  eq_refl eq_refl eq_refl) eq_refl).
Defined.


(** C6.  The code at a substitute that throws: the timer is armed, the
    substitute is called, its exception escapes the timer callback, and
    the promise handed to the caller never settles. *)
Theorem throwing_substitute_never_settles (rt : Runtime) (input : value) :
  exists wrapped,
    requests Users.failing "getUsers" = Some wrapped /\
    wrapped input =
      ([SetTimeout (Int 200); CallMock "getUsers" input; Uncaught (VStr "boom")],
       Pending) /\
    snd (wrapped input) <> Rejected (VStr "boom").
Proof.
  exists (dispatch Users.failing "getUsers" Users.live).
  split; [reflexivity|].
  assert (H : dispatch Users.failing "getUsers" Users.live input =
              ([SetTimeout (Int 200); CallMock "getUsers" input;
                Uncaught (VStr "boom")], Pending)).
  { apply (substitute_throw_is_lost Users.failing "getUsers" Users.live
             Users.throwing input (VStr "boom")); reflexivity. }
  split; [exact H|]. rewrite H. discriminate.
Qed.

(** C7.  The path function of a string template at the template
    [/users/:id]: the segment that ends the template is left as it is,
    and of a segment that occurs twice only the first is replaced. *)
Theorem final_segment_is_not_replaced :
  metaRequest_path (inl "/users/:id") (VObj [("id", VStr "7")]) = "/users/:id" /\
  metaRequest_path (inl "/users/:id") (VObj [("id", VStr "7")]) <> "/users/7" /\
  metaRequest_path (inl "/a/:id/b/:id/") (VObj [("id", VStr "7")]) = "/a/7/b/:id/".
Proof. repeat split; [discriminate]. Qed.

(** ** The interceptor *)

Section ListenerFacts.

Context {rt : Runtime}.

Lemma after_snoc this l a : after this (l ++ [a]) = act (after this l) a.
Proof. unfold after. now rewrite fold_left_app. Qed.

Lemma act_fixed this a :
  url (act this a) = url this /\ baseMock (act this a) = baseMock this.
Proof.
  destruct a as [m|c m| |rq i o]; cbn; try tauto.
  unfold listener_resume. destruct (isInterceptResolutionHandled rq); cbn; tauto.
Qed.

Lemma after_fixed this l :
  url (after this l) = url this /\ baseMock (after this l) = baseMock this.
Proof.
  induction l as [|a l IH] using rev_ind; [now split|].
  rewrite after_snoc. destruct (act_fixed (after this l) a) as [-> ->]. exact IH.
Qed.

Lemma resume_settings this request input output :
  let this' := fst (listener_resume this request input output) in
  status this' = status this /\ override this' = override this.
Proof.
  unfold listener_resume.
  destruct (isInterceptResolutionHandled request); cbn; tauto.
Qed.

(** Listener runs alone change neither the status nor the override. *)
Lemma resumes_keep_settings this l :
  forallb is_resume l = true ->
  status (after this l) = status this /\ override (after this l) = override this.
Proof.
  induction l as [|a l IH] using rev_ind; [now split|].
  rewrite forallb_app. intros H. apply andb_prop in H as [Hl Ha].
  rewrite after_snoc. destruct a; cbn in Ha; try discriminate.
  destruct (IH Hl) as [<- <-]. apply resume_settings.
Qed.

(** An interceptor with no override has the status 200, whatever was
    done to it since its construction. *)
Lemma no_override_status_200 u b l :
  override (after (RequestMock_init u b) l) = None ->
  status (after (RequestMock_init u b) l) = Int 200.
Proof.
  induction l as [|a l IH] using rev_ind; [reflexivity|].
  rewrite after_snoc. destruct a as [m|c m| |rq i o]; cbn; try discriminate; auto.
  destruct (resume_settings (after (RequestMock_init u b) l) rq i o) as [Hs Ho].
  cbv zeta in Hs, Ho. rewrite Hs, Ho. exact IH.
Qed.

(** A matching request nobody has resolved, with a body that parses and
    a responder that yields [output], is answered. *)
Lemma listener_serves this request input output :
  isInterceptResolutionHandled request = false ->
  endsWith (request_url request) (url this) = true ->
  JSON_parse (body_text request) = Ok input ->
  promise_of (responder this input) = Fulfilled output ->
  listener_begin this request = Resumes input output /\
  listener this request false =
    (push_call {| call_input := input; call_output := output |} this,
     Resolved (Respond {| response_code := status this;
                          contentType := "application/json";
                          body := JSON_stringify output |} 0)).
Proof.
  intros Hh He Hp Ho.
  assert (Hb : listener_begin this request = Resumes input output).
  { unfold listener_begin. now rewrite Hh, He, Hp, Ho. }
  split; [exact Hb|]. unfold listener. rewrite Hb. reflexivity.
Qed.

(** C10.  The three mutators leave the call history as it is; a run of
    the listener leaves it as it is or adds one entry at its end; so
    whatever is done to an interceptor, the history it had is the
    beginning of the history it has. *)
Theorem history_is_append_only (this : RequestMock) :
  (forall mock, calls (setResponse mock this) = calls this) /\
  (forall code mock, calls (setError code mock this) = calls this) /\
  calls (reset this) = calls this /\
  (forall request handledLater,
      let this' := fst (listener this request handledLater) in
      calls this' = calls this \/
      exists input output,
        calls this' =
          (calls this ++ [{| call_input := input; call_output := output |}])%list) /\
  (forall l, exists added, calls (after this l) = (calls this ++ added)%list).
Proof.
  repeat split.
  - intros request handledLater. cbv zeta. unfold listener.
    destruct (listener_begin this request) as [[r|]|e|i|i o]; cbn; auto.
    unfold listener_resume. cbn. destruct handledLater; cbn; eauto.
  - intros l. induction l as [|a l [added IH]] using rev_ind.
    + exists []. cbn. now rewrite app_nil_r.
    + rewrite after_snoc.
      destruct a as [m|c m| |rq i o]; cbn; try (exists added; exact IH).
      unfold listener_resume. destruct (isInterceptResolutionHandled rq); cbn.
      * exists added; exact IH.
      * exists (added ++ [{| call_input := i; call_output := o |}])%list.
        rewrite IH. now rewrite app_assoc.
Qed.

Lemma listener_resume_unresolved later request input output :
  isInterceptResolutionHandled request = false ->
  listener_resume later request input output =
    (push_call {| call_input := input; call_output := output |} later,
     Resolved (Respond {| response_code := status later;
                          contentType := "application/json";
                          body := JSON_stringify output |} 0)).
Proof. intros Hh. unfold listener_resume. now rewrite Hh. Qed.


(** C5, as the code has it.  After [setError(code, mock)] (503 in the
    specification), and any number of listener runs later, the
    interceptor has the status [code] and the responder [mock].  A
    matching request that is unresolved when it arrives and whose body
    parses is handed to [mock]; when [mock] yields an output and the
    request is still unresolved, the request is completed with the
    status the interceptor has at that moment and the serialised output:
    [code] when nothing but listener runs happened meanwhile.  After a
    following [reset()] the status is 200 and the responder the
    substitute captured at construction, which answers the matching
    requests that arrive from then on.  [setResponse(mock)] replaces the
    override and nothing else, so a matching request is then completed
    with the status there was and the output of [mock]. *)
Theorem setError_reset_setResponse (this : RequestMock) (code : number)
    (mock : func) (l : list action) (request : HTTPRequest)
    (input : value) :
  forallb is_resume l = true ->
  isInterceptResolutionHandled request = false ->
  endsWith (request_url request) (url this) = true ->
  JSON_parse (body_text request) = Ok input ->
  let erring := after (setError code mock this) l in
  (status erring = code /\ responder erring = mock) /\
  (forall output, promise_of (mock input) = Fulfilled output ->
     listener_begin erring request = Resumes input output /\
     (forall l' request',
         forallb is_resume l' = true ->
         isInterceptResolutionHandled request' = false ->
         listener_resume (after erring l') request' input output =
           (push_call {| call_input := input; call_output := output |}
              (after erring l'),
            Resolved (Respond {| response_code := code;
                                 contentType := "application/json";
                                 body := JSON_stringify output |} 0))) /\
     (forall later request',
         isInterceptResolutionHandled request' = false ->
         listener_resume later request' input output =
           (push_call {| call_input := input; call_output := output |} later,
            Resolved (Respond {| response_code := status later;
                                 contentType := "application/json";
                                 body := JSON_stringify output |} 0))) /\
     listener erring request false =
       (push_call {| call_input := input; call_output := output |} erring,
        Resolved (Respond {| response_code := code;
                             contentType := "application/json";
                             body := JSON_stringify output |} 0))) /\
  (status (reset erring) = Int 200 /\
   responder (reset erring) = baseMock this /\
   forall output, promise_of (baseMock this input) = Fulfilled output ->
     listener (reset erring) request false =
       (push_call {| call_input := input; call_output := output |} (reset erring),
        Resolved (Respond {| response_code := Int 200;
                             contentType := "application/json";
                             body := JSON_stringify output |} 0))) /\
  (forall mock',
     setResponse mock' this =
       {| url := url this; baseMock := baseMock this; status := status this;
          override := Some mock'; calls := calls this |} /\
     forall output, promise_of (mock' input) = Fulfilled output ->
       listener (setResponse mock' this) request false =
         (push_call {| call_input := input; call_output := output |}
            (setResponse mock' this),
          Resolved (Respond {| response_code := status this;
                               contentType := "application/json";
                               body := JSON_stringify output |} 0))).
Proof.
  intros Hl Hh He Hp erring.
  destruct (resumes_keep_settings (setError code mock this) l Hl) as [Hs Ho].
  destruct (after_fixed (setError code mock this) l) as [Hu Hb].
  fold erring in Hs, Ho, Hu, Hb. cbn in Hs, Ho, Hu, Hb.
  assert (Hr : responder erring = mock) by (unfold responder; now rewrite Ho).
  split; [split; [exact Hs | exact Hr]|].
  split; [|split].
  - intros output Hout.
    assert (Hserves : listener_begin erring request = Resumes input output /\
              listener erring request false =
                (push_call {| call_input := input; call_output := output |} erring,
                 Resolved (Respond {| response_code := status erring;
                                      contentType := "application/json";
                                      body := JSON_stringify output |} 0))).
    { apply listener_serves; auto; [now rewrite Hu | now rewrite Hr]. }
    destruct Hserves as [Hbegin Hrun].
    split; [exact Hbegin|]. split; [|split].
    + intros l' request' Hl' Hh'.
      rewrite (listener_resume_unresolved _ _ _ _ Hh').
      destruct (resumes_keep_settings erring l' Hl') as [-> _].
      now rewrite Hs.
    + intros later request' Hh'. now apply listener_resume_unresolved.
    + rewrite Hrun. now rewrite Hs.
  - split; [reflexivity|]. split; [unfold responder; cbn; exact Hb|].
    intros output Hout.
    apply (listener_serves (reset erring)); auto.
    + cbn. now rewrite Hu.
    + unfold responder. cbn. now rewrite Hb.
  - intros mock'. split; [reflexivity|].
    intros output Hout.
    apply (listener_serves (setResponse mock' this)); auto.
Qed.


End ListenerFacts.

Lemma setError_reset_setResponse_witness :
  listener (rt := Sample.runtime)
    (setError (Int 503) Users.substitute (RequestMock_init "users/getUsers" empty_mock))
    {| request_url := "http://localhost:3000/users/getUsers";
       postData := None; isInterceptResolutionHandled := false |} false
  = (push_call {| call_input := VObj [];
                  call_output := VArr [VObj [("id", VStr "1")]] |}
       (setError (Int 503) Users.substitute
          (RequestMock_init "users/getUsers" empty_mock)),
     Resolved (Respond {| response_code := Int 503;
                          contentType := "application/json";
                          body := Sample.stringify (VArr [VObj [("id", VStr "1")]]) |} 0)).
Proof.
  destruct (setError_reset_setResponse (rt := Sample.runtime)
              (RequestMock_init "users/getUsers" empty_mock) (Int 503)
              Users.substitute []
              {| request_url := "http://localhost:3000/users/getUsers";
                 postData := None; isInterceptResolutionHandled := false |}
              (VObj []) eq_refl eq_refl eq_refl eq_refl)
    as (_ & Hserve & _).
  destruct (Hserve (VArr [VObj [("id", VStr "1")]]) eq_refl) as (_ & _ & _ & Hrun).
  exact Hrun.
Defined.

(** C5, where the claim fails.  After [setError(503, responder)] a
    matching request is not always completed with 503 and the output of
    the responder.  A request that arrives then and is answered after a
    [reset()] made while the responder was awaited is completed with
    status 200 and the output of the error responder.  A matching
    request that another observer has resolved is left alone, and one
    whose body is not JSON makes the listener fail. *)
Lemma matching_call_after_setError_without_503 :
  let erring :=
    setError (Int 503) Users.unavailable
      (RequestMock_init "users/getUsers" Users.substitute) in
  let request := {| request_url := "http://localhost:3000/users/getUsers";
                    postData := None; isInterceptResolutionHandled := false |} in
  let resolved := {| request_url := "http://localhost:3000/users/getUsers";
                     postData := None; isInterceptResolutionHandled := true |} in
  let malformed := {| request_url := "http://localhost:3000/users/getUsers";
                      postData := Some "id=1";
                      isInterceptResolutionHandled := false |} in
  let output := VObj [("error", VStr "unavailable")] in
  listener_begin (rt := Sample.runtime) erring request = Resumes (VObj []) output /\
  listener_resume (rt := Sample.runtime) (reset erring) request (VObj []) output =
    (push_call {| call_input := VObj []; call_output := output |} (reset erring),
     Resolved (Respond {| response_code := Int 200;
                          contentType := "application/json";
                          body := Sample.stringify output |} 0)) /\
  endsWith (request_url resolved) (url erring) = true /\
  listener (rt := Sample.runtime) erring resolved false = (erring, Ignored) /\
  endsWith (request_url malformed) (url erring) = true /\
  listener (rt := Sample.runtime) erring malformed false =
    (erring, Rejects Sample.syntax_error).
Proof. cbv zeta. repeat split. Qed.



(** ** Installing interception *)

Lemma assoc_with_key {A} (key : string) (x : A) (o : list (string * A)) (k : string) :
  assoc k (with_key key x o) = if String.eqb key k then Some x else assoc k o.
Proof.
  induction o as [|[k0 y] rest IH]; cbn; [reflexivity|].
  destruct (String.eqb_spec k0 key) as [->|Hne]; cbn.
  - destruct (String.eqb key k); reflexivity.
  - rewrite IH. destruct (String.eqb_spec k0 k) as [->|Hk]; [|reflexivity].
    destruct (String.eqb_spec key k) as [->|_]; [contradiction|reflexivity].
Qed.

Section InterceptionFacts.

Context {rt : Runtime}.

Lemma base_responder_substitute service key mock :
  mocks service !! key = Some mock -> base_responder service key = mock.
Proof.
  intros Hm. unfold base_responder. now rewrite (property_of_own _ _ _ Hm).
Qed.

Lemma base_responder_default service key :
  mocks service !! key = None -> inherited key = false ->
  base_responder service key = empty_mock.
Proof.
  intros Hm Hi. unfold base_responder.
  now rewrite (property_of_undefined _ _ Hm Hi).
Qed.

(** The interceptor [mockAPI] constructs for a request name. *)
Lemma mockAPI_step_world service w sm key :
  let r := mockAPI_step service (w, sm) key in
  heap (fst r) =
    (heap w ++ [RequestMock_init (name service ++ "/" ++ key)
                  (base_responder service key)])%list /\
  request_listeners (page (fst r)) =
    (request_listeners (page w) ++ [length (heap w)])%list /\
  requestInterception (page (fst r)) = requestInterception (page w) /\
  snd r = with_key key (length (heap w)) sm.
Proof. cbn. auto. Qed.

(** The world after the [reduce]: one new object and one new listener
    per key, in the order of the keys. *)
Lemma mockAPI_fold_world service keys w sm :
  let r := fold_left (mockAPI_step service) keys (w, sm) in
  heap (fst r) =
    (heap w ++ List.map (fun key => RequestMock_init (name service ++ "/" ++ key)
                                      (base_responder service key)) keys)%list /\
  request_listeners (page (fst r)) =
    (request_listeners (page w) ++ seq (length (heap w)) (length keys))%list /\
  requestInterception (page (fst r)) = requestInterception (page w).
Proof.
  revert w sm. induction keys as [|key keys IH]; intros w sm; cbn [fold_left].
  - cbn. now rewrite !app_nil_r.
  - specialize (IH (fst (mockAPI_step service (w, sm) key))
                   (snd (mockAPI_step service (w, sm) key))).
    rewrite <- surjective_pairing in IH. cbv zeta in IH.
    destruct IH as (Hh & Hl & Hi).
    destruct (mockAPI_step_world service w sm key) as (Hh1 & Hl1 & Hi1 & _).
    cbv zeta in Hh1, Hl1, Hi1.
    rewrite Hh, Hl, Hi, Hh1, Hl1, Hi1.
    rewrite length_app. cbn [length].
    rewrite <- !app_assoc. cbn [app].
    replace (length (heap w) + 1) with (S (length (heap w))) by lia.
    auto.
Qed.

Lemma mockAPI_fold_names service keys w sm :
  names_interceptors service w sm ->
  let r := fold_left (mockAPI_step service) keys (w, sm) in
  names_interceptors service (fst r) (snd r) /\
  forall k, In k keys \/ is_Some (assoc k sm) -> is_Some (assoc k (snd r)).
Proof.
  revert w sm. induction keys as [|key keys IH]; intros w sm Hn; cbn [fold_left].
  - cbn. split; [exact Hn|]. intros k [[]|H]; exact H.
  - destruct (mockAPI_step_world service w sm key) as (Hh1 & Hl1 & _ & Hs1).
    cbv zeta in Hh1, Hl1, Hs1.
    specialize (IH (fst (mockAPI_step service (w, sm) key))
                   (snd (mockAPI_step service (w, sm) key))).
    rewrite <- surjective_pairing in IH. cbv zeta in IH.
    destruct IH as [IHn IHp].
    + intros k id Hk. rewrite Hs1, assoc_with_key in Hk. rewrite Hh1, Hl1.
      destruct (String.eqb_spec key k) as [->|Hne].
      * injection Hk as <-. split.
        -- now apply list_lookup_middle.
        -- apply in_or_app. right. now left.
      * destruct (Hn k id Hk) as [Hlook Hin]. split.
        -- rewrite lookup_app_l; [exact Hlook|]. eapply lookup_lt_Some, Hlook.
        -- apply in_or_app. now left.
    + split; [exact IHn|].
      intros k Hk. apply IHp.
      rewrite Hs1, assoc_with_key.
      destruct (String.eqb_spec key k) as [->|Hne]; [right; eauto|].
      destruct Hk as [[Hk|Hk]|Hk]; [contradiction|now left|now right].
Qed.

Lemma mockAPI_unfold service w :
  mockAPI service w =
    (service,
     fst (fold_left (mockAPI_step service) (request_keys service)
            (setRequestInterception true w, [])),
     snd (fold_left (mockAPI_step service) (request_keys service)
            (setRequestInterception true w, []))).
Proof.
  unfold mockAPI.
  now destruct (fold_left (mockAPI_step service) (request_keys service)
                  (setRequestInterception true w, [])).
Qed.

(** [mockAPI] turns interception on, allocates one interceptor per
    request name and registers one listener for each. *)
Lemma mockAPI_world service w :
  requestInterception (page (snd (fst (mockAPI service w)))) = true /\
  heap (snd (fst (mockAPI service w))) =
    (heap w ++ List.map (fun key => RequestMock_init (name service ++ "/" ++ key)
                                      (base_responder service key))
                 (request_keys service))%list /\
  request_listeners (page (snd (fst (mockAPI service w)))) =
    (request_listeners (page w) ++
     seq (length (heap w)) (length (request_keys service)))%list.
Proof.
  rewrite mockAPI_unfold. cbn [fst snd].
  destruct (mockAPI_fold_world service (request_keys service)
              (setRequestInterception true w) []) as (Hh & Hl & Hi).
  cbv zeta in Hh, Hl, Hi. rewrite Hh, Hl, Hi. auto.
Qed.

Lemma mockAPI_names service w :
  names_interceptors service (snd (fst (mockAPI service w))) (snd (mockAPI service w)) /\
  forall key, In key (request_keys service) ->
    is_Some (assoc key (snd (mockAPI service w))).
Proof.
  rewrite mockAPI_unfold. cbn [fst snd].
  destruct (mockAPI_fold_names service (request_keys service)
              (setRequestInterception true w) []) as [Hn Hp].
  - intros k id Hk. discriminate Hk.
  - split; [exact Hn|]. intros key Hk. apply Hp. now left.
Qed.

End InterceptionFacts.

(** C2, as the code has it.  [mockAPI] returns with the service as it
    was: the [mocks] field is read, not emptied, and a dispatch does after
    the call what it did before.  The field is emptied by
    [setupInteractionBuilders]; after that no dispatch of a request whose
    name is not that of a member of [Object.prototype] takes the
    substitute path. *)
Theorem mockAPI_leaves_mocks (rt : Runtime) (service : APIService) (w : World) :
  fst (fst (mockAPI service w)) = service /\
  mocks (fst (fst (mockAPI service w))) = mocks service /\
  (forall key call input,
      request (fst (fst (mockAPI service w))) key call input =
      request service key call input) /\
  mocks (fst (setupInteractionBuilders service)) = ∅ /\
  (forall key call input ms,
      inherited key = false ->
      request (fst (setupInteractionBuilders service)) key call input <> Armed ms).
Proof.
  rewrite mockAPI_unfold. cbn [fst snd].
  repeat split.
  intros key call input ms Hi. unfold request. cbn.
  destruct (tunnel_flag (config service)); [discriminate|].
  rewrite property_of_empty, Hi. discriminate.
Qed.

(** After [mockAPI] the substitutes are still in place and a dispatch
    still goes to them. *)
Lemma mocks_remain_after_mockAPI :
  mocks (fst (fst (mockAPI (rt := Sample.runtime) Users.mocked Users.blank))) <> ∅ /\
  request (rt := Sample.runtime)
    (fst (fst (mockAPI (rt := Sample.runtime) Users.mocked Users.blank)))
    "getUsers" Users.live VUndefined = Armed (Int 200).
Proof.
  split; [|reflexivity].
  intros H.
  assert (Hl : mocks (fst (fst (mockAPI (rt := Sample.runtime) Users.mocked
                                  Users.blank))) !! "getUsers"
               = Some Users.substitute) by reflexivity.
  rewrite H, lookup_empty in Hl. discriminate Hl.
Qed.

(** C3, as the code has it.  [mockAPI] turns interception on and
    registers one listener per request name: every interceptor is a new
    object with a listener of its own, so the listeners of the page grow
    by the number of request names, and every entry of the returned
    [ServiceMock] names the interceptor of its key, whose listener is
    among those registered. *)
Theorem mockAPI_registers_one_listener_per_request (rt : Runtime)
    (service : APIService) (w : World) :
  requestInterception (page (snd (fst (mockAPI service w)))) = true /\
  request_listeners (page (snd (fst (mockAPI service w)))) =
    (request_listeners (page w) ++
     seq (length (heap w)) (length (request_keys service)))%list /\
  length (request_listeners (page (snd (fst (mockAPI service w))))) =
    length (request_listeners (page w)) + length (request_keys service) /\
  NoDup (seq (length (heap w)) (length (request_keys service))) /\
  (forall key id,
      assoc key (snd (mockAPI service w)) = Some id ->
      heap (snd (fst (mockAPI service w))) !! id =
        Some (RequestMock_init (name service ++ "/" ++ key)
                (base_responder service key)) /\
      In id (request_listeners (page (snd (fst (mockAPI service w)))))) /\
  (forall key, In key (request_keys service) ->
      is_Some (assoc key (snd (mockAPI service w)))).
Proof.
  destruct (mockAPI_world service w) as (Hi & Hh & Hl).
  destruct (mockAPI_names service w) as [Hn Hp].
  split; [exact Hi|]. split; [exact Hl|]. split.
  - rewrite Hl, length_app, length_seq. reflexivity.
  - split; [apply NoDup_ListNoDup, seq_NoDup|].
    split; [exact Hn|exact Hp].
Qed.

(** Two request names, two listeners. *)
Lemma two_requests_two_listeners :
  length (request_listeners
            (page (snd (fst (mockAPI (rt := Sample.runtime) Users.two_requests
                               Users.blank)))))
  = 2 /\
  length (request_listeners
            (page (snd (fst (mockAPI (rt := Sample.runtime) Users.two_requests
                               Users.blank)))))
  <> 1.
Proof. split; [reflexivity|discriminate]. Qed.

(** C8, as the code has it.  For a request name that has no substitute
    when [mockAPI] is called and is not the name of a member of
    [Object.prototype], the interceptor under that name answers with the
    empty object by default: with no override set, whatever was done to
    it before, a matching request that is unresolved, on arrival and
    when the responder has settled, and whose body parses is completed
    with status 200 and the serialised empty object as body. *)
Theorem absent_substitute_answers_empty_object (rt : Runtime)
    (service : APIService) (w : World) (key : string) :
  In key (request_keys service) ->
  mocks service !! key = None ->
  inherited key = false ->
  JSON_stringify empty_object = Some "{}" ->
  exists id this,
    assoc key (snd (mockAPI service w)) = Some id /\
    heap (snd (fst (mockAPI service w))) !! id = Some this /\
    In id (request_listeners (page (snd (fst (mockAPI service w))))) /\
    url this = name service ++ "/" ++ key /\
    (forall input, baseMock this input = Returns empty_object) /\
    forall l request input,
      override (after this l) = None ->
      isInterceptResolutionHandled request = false ->
      endsWith (request_url request) (url this) = true ->
      JSON_parse (body_text request) = Ok input ->
      listener (after this l) request false =
        (push_call {| call_input := input; call_output := empty_object |}
           (after this l),
         Resolved (Respond {| response_code := Int 200;
                              contentType := "application/json";
                              body := Some "{}" |} 0)).
Proof.
  intros Hin Hnone Hname Hjson.
  destruct (mockAPI_names service w) as [Hn Hp].
  destruct (Hp key Hin) as [id Hid].
  destruct (Hn key id Hid) as [Hlook Hl].
  rewrite (base_responder_default _ _ Hnone Hname) in Hlook.
  exists id, (RequestMock_init (name service ++ "/" ++ key) empty_mock).
  repeat (split; [solve [auto]|]).
  intros l request input Ho Hh He Hparse.
  set (this := RequestMock_init (name service ++ "/" ++ key) empty_mock) in *.
  destruct (after_fixed this l) as [Hu Hb].
  pose proof (no_override_status_200 _ _ l Ho) as Hs. fold this in Hs.
  rewrite <- Hs, <- Hjson.
  apply listener_serves; auto.
  - now rewrite Hu.
  - unfold responder. now rewrite Ho, Hb.
Qed.

Lemma absent_substitute_answers_empty_object_witness :
  exists id this,
    assoc "addUser" (snd (mockAPI (rt := Sample.runtime) Users.two_requests
                            Users.blank)) = Some id /\
    heap (snd (fst (mockAPI (rt := Sample.runtime) Users.two_requests
                      Users.blank))) !! id = Some this /\
    listener (rt := Sample.runtime) this
      {| request_url := "http://localhost:3000/users/addUser";
         postData := Some "{}"; isInterceptResolutionHandled := false |} false
    = (push_call {| call_input := VObj []; call_output := VObj [] |} this,
       Resolved (Respond {| response_code := Int 200;
                            contentType := "application/json";
                            body := Some "{}" |} 0)).
Proof.
  destruct (absent_substitute_answers_empty_object Sample.runtime
              Users.two_requests Users.blank "addUser"
              (or_intror (or_introl eq_refl)) eq_refl eq_refl eq_refl)
    as (id & this & Hid & Hheap & _ & _ & _ & Hserve).
  exists id, this. split; [exact Hid|]. split; [exact Hheap|].
  cbn in Hid. injection Hid as <-. cbn in Hheap. injection Hheap as <-.
  exact (Hserve []
           {| request_url := "http://localhost:3000/users/addUser";
              postData := Some "{}"; isInterceptResolutionHandled := false |}
           (VObj []) eq_refl eq_refl eq_refl eq_refl).
Defined.

(** C8, where the claim fails.  For the request name [toString], with
    no substitute, the interceptor gets the [toString] of
    [Object.prototype] as its responder, not the function returning the
    empty object: a matching request is completed with the text
    [[object Undefined]] as body.  And for a name whose default
    responder does return the empty object, a matching request whose
    body is not JSON is not completed: the listener fails. *)
Lemma default_responder_without_empty_object :
  let this :=
    RequestMock_init "text/toString"
      (base_responder (rt := Sample.runtime) Users.text "toString") in
  let request := {| request_url := "http://localhost:3000/text/toString";
                    postData := None; isInterceptResolutionHandled := false |} in
  let other := RequestMock_init "users/addUser" empty_mock in
  let malformed := {| request_url := "http://localhost:3000/users/addUser";
                      postData := Some "id=1";
                      isInterceptResolutionHandled := false |} in
  In "toString" (request_keys Users.text) /\
  mocks Users.text !! "toString" = None /\
  assoc "toString" (snd (mockAPI (rt := Sample.runtime) Users.text Users.blank))
    = Some 0 /\
  heap (snd (fst (mockAPI (rt := Sample.runtime) Users.text Users.blank))) !! 0
    = Some this /\
  listener (rt := Sample.runtime) this request false =
    (push_call {| call_input := VObj [];
                  call_output := VStr "[object Undefined]" |} this,
     Resolved (Respond {| response_code := Int 200;
                          contentType := "application/json";
                          body := Sample.stringify (VStr "[object Undefined]") |} 0)) /\
  Sample.stringify (VStr "[object Undefined]") <> Some "{}" /\
  mocks Users.two_requests !! "addUser" = None /\
  assoc "addUser" (snd (mockAPI (rt := Sample.runtime) Users.two_requests
                          Users.blank)) = Some 1 /\
  heap (snd (fst (mockAPI (rt := Sample.runtime) Users.two_requests
                    Users.blank))) !! 1 = Some other /\
  listener (rt := Sample.runtime) other malformed false =
    (other, Rejects Sample.syntax_error).
Proof.
  cbv zeta. repeat split; try reflexivity.
  - now left.
  - discriminate.
Qed.

(** ** More on path templates *)

Lemma append_nil (b : string) : "" ++ b = b.
Proof. reflexivity. Qed.

Lemma append_cons (c : ascii) (a b : string) : String c a ++ b = String c (a ++ b).
Proof. reflexivity. Qed.

Lemma string_app_assoc (a b c : string) : (a ++ b) ++ c = a ++ b ++ c.
Proof.
  induction a as [|x a IH]; [reflexivity|].
  now rewrite !append_cons, IH.
Qed.

Lemma prefix_split (pat s : string) :
  String.prefix pat s = true -> s = pat ++ drop (String.length pat) s.
Proof.
  revert s. induction pat as [|c pat IH]; intros s H; [reflexivity|].
  destruct s as [|d s]; cbn in H; [discriminate|].
  destruct (ascii_dec c d) as [->|]; [|discriminate].
  rewrite append_cons. cbn [String.length drop]. now rewrite <- (IH s H).
Qed.

Lemma prefix_app (pat rest : string) : String.prefix pat (pat ++ rest) = true.
Proof.
  induction pat as [|c pat IH]; [now destruct rest|].
  rewrite append_cons. cbn [String.prefix].
  destruct (ascii_dec c c); [exact IH|contradiction].
Qed.

Lemma prefix_cons_same (c : ascii) (p s : string) :
  String.prefix (String c p) (String c s) = String.prefix p s.
Proof. cbn [String.prefix]. destruct (ascii_dec c c); [reflexivity|contradiction]. Qed.

Lemma drop_app (pat rest : string) : drop (String.length pat) (pat ++ rest) = rest.
Proof.
  induction pat as [|c pat IH]; [reflexivity|].
  rewrite append_cons. cbn [String.length drop]. exact IH.
Qed.

(** [split_first] cuts the text around an occurrence of the pattern. *)
Lemma split_first_sound (pat s before after : string) :
  split_first pat s = Some (before, after) -> s = before ++ pat ++ after.
Proof.
  revert before. induction s as [|c s IH]; intros before H.
  - cbn [split_first] in H. destruct (String.prefix pat "") eqn:Hp; [|discriminate].
    injection H as <- <-. rewrite append_nil. exact (prefix_split _ _ Hp).
  - cbn [split_first] in H.
    destruct (String.prefix pat (String c s)) eqn:Hp.
    + injection H as <- <-. rewrite append_nil. exact (prefix_split _ _ Hp).
    + destruct (split_first pat s) as [[b a]|] eqn:Hs; [|discriminate].
      injection H as <- <-. rewrite append_cons. now rewrite (IH b eq_refl).
Qed.

Lemma has_slash_app (k rest : string) : has_slash (k ++ "/" ++ rest) = true.
Proof.
  induction k as [|c k IH]; [reflexivity|].
  rewrite append_cons. cbn [has_slash]. rewrite IH. apply orb_true_r.
Qed.

Lemma slotted_app (before key after : string) :
  slotted (before ++ "/:" ++ key ++ "/" ++ after) = true.
Proof.
  induction before as [|c before IH].
  - rewrite append_nil.
    change ("/:" ++ key ++ "/" ++ after)
      with (String "/" (String ":" (key ++ "/" ++ after))).
    cbn [slotted]. rewrite has_slash_app. reflexivity.
  - rewrite append_cons. cbn [slotted]. rewrite IH. apply orb_true_r.
Qed.

(** Without a slot no pattern [/:key/] is found. *)
Lemma unslotted_no_match (url key : string) :
  slotted url = false -> split_first ("/:" ++ key ++ "/") url = None.
Proof.
  intros Hs.
  destruct (split_first ("/:" ++ key ++ "/") url) as [[b a]|] eqn:H; [|reflexivity].
  apply split_first_sound in H. subst url.
  replace (("/:" ++ key ++ "/") ++ a) with ("/:" ++ key ++ "/" ++ a) in Hs
    by now rewrite !string_app_assoc.
  now rewrite slotted_app in Hs.
Qed.

(** X1.  A template in which no [/:] is followed by a [/] comes back as
    it is for every input whose field values can be converted to a
    string: a template without placeholders, and also a template whose
    only placeholder is its last segment. *)
Theorem buildURL_without_slot (url : string) (input : value) :
  convertible_fields (entries input) = true ->
  slotted url = false -> buildURL url input = url.
Proof.
  intros _ Hs. unfold buildURL. destruct (truthy input); [|reflexivity].
  induction (Object_keys input) as [|key keys IH]; [reflexivity|].
  cbn [fold_left]. unfold replace at 2.
  now rewrite (unslotted_no_match url key Hs).
Qed.

Lemma buildURL_without_slot_witness :
  buildURL "/users/:id" (VObj [("id", VStr "7"); ("name", VStr "Ann")]) = "/users/:id".
Proof.
  exact (buildURL_without_slot "/users/:id"
           (VObj [("id", VStr "7"); ("name", VStr "Ann")]) eq_refl eq_refl).
Defined.

Lemma split_first_unfold (pat s : string) :
  split_first pat s =
    if String.prefix pat s then Some ("", drop (String.length pat) s)
    else match s with
         | EmptyString => None
         | String c rest =>
             match split_first pat rest with
             | Some (before, after) => Some (String c before, after)
             | None => None
             end
         end.
Proof. destruct s; reflexivity. Qed.

(** The first occurrence of [/:key/] is where the text before it has no
    [/:]. *)
Lemma split_first_at (before key after : string) :
  split_first "/:" before = None ->
  split_first ("/:" ++ key ++ "/") (before ++ ("/:" ++ key ++ "/") ++ after)
  = Some (before, after).
Proof.
  set (pat := "/:" ++ key ++ "/").
  induction before as [|c before IH]; intros H.
  - rewrite append_nil, split_first_unfold, prefix_app, drop_app. reflexivity.
  - rewrite split_first_unfold in H.
    destruct (String.prefix "/:" (String c before)) eqn:Hp; [discriminate|].
    destruct (split_first "/:" before) as [[b a]|] eqn:Hs; [discriminate|].
    rewrite (append_cons c before), split_first_unfold.
    assert (Hf : String.prefix pat (String c (before ++ pat ++ after)) = false).
    { unfold pat.
      change ("/:" ++ key ++ "/") with (String "/" (String ":" (key ++ "/"))).
      cbn [String.prefix]. destruct (ascii_dec "/" c) as [<-|]; [|reflexivity].
      destruct before as [|d before'].
      - rewrite append_nil, (append_cons "/"). cbn [String.prefix].
        destruct (ascii_dec ":" "/"); [discriminate|reflexivity].
      - rewrite (append_cons d). cbn [String.prefix].
        destruct (ascii_dec ":" d) as [<-|]; [|reflexivity].
        rewrite !prefix_cons_same in Hp. destruct before'; discriminate Hp. }
    rewrite Hf. now rewrite (IH eq_refl).
Qed.

Lemma GetSubstitution_cons (matched before after : string) (c : ascii) (tl : string) :
  Ascii.eqb c "$" = false ->
  GetSubstitution matched before after (String c tl)
  = String c (GetSubstitution matched before after tl).
Proof. intros H. cbn [GetSubstitution]. now rewrite H. Qed.

(** A replacement text without [$] is inserted as it is. *)
Lemma GetSubstitution_dollar_free (matched before after t : string) :
  dollar_free t = true -> GetSubstitution matched before after t = t.
Proof.
  induction t as [|c t IH]; intros H; [reflexivity|].
  cbn [dollar_free] in H. apply andb_prop in H as [Hc Ht].
  apply negb_true_iff in Hc.
  now rewrite GetSubstitution_cons, IH.
Qed.

Lemma GetSubstitution_app (matched before after p t : string) :
  dollar_free p = true ->
  GetSubstitution matched before after (p ++ t)
  = p ++ GetSubstitution matched before after t.
Proof.
  induction p as [|c p IH]; intros H; [reflexivity|].
  cbn [dollar_free] in H. apply andb_prop in H as [Hc Hp].
  apply negb_true_iff in Hc.
  now rewrite !append_cons, GetSubstitution_cons, IH.
Qed.

Lemma dollar_free_app (a b : string) :
  dollar_free (a ++ b) = dollar_free a && dollar_free b.
Proof.
  induction a as [|c a IH]; [reflexivity|].
  rewrite append_cons. cbn [dollar_free]. now rewrite IH, andb_assoc.
Qed.

(** Keys whose pattern finds no slot leave the text alone. *)
Lemma fold_replace_unslotted (input : value) (keys : list string) (url : string) :
  slotted url = false ->
  fold_left
    (fun res key =>
       replace res ("/:" ++ key ++ "/") ("/" ++ ToString (get input key) ++ "/"))
    keys url = url.
Proof.
  intros Hs. induction keys as [|key keys IH]; [reflexivity|].
  cbn [fold_left]. unfold replace at 2.
  now rewrite (unslotted_no_match url key Hs).
Qed.

Lemma assoc_head {A} (key : string) (x : A) (rest : list (string * A)) :
  assoc key ((key, x) :: rest) = Some x.
Proof. cbn. now rewrite String.eqb_refl. Qed.

Lemma get_head (key : string) (v : value) (rest : list (string * value)) :
  get (VObj ((key, v) :: rest)) key = v.
Proof. unfold get. cbn [entries]. now rewrite assoc_head. Qed.

(** What [buildURL] does to a template whose first [/:] opens the slot of
    the first field, for any replacement expansion. *)
Lemma buildURL_first_field (before key after : string) (v : value)
    (rest : list (string * value)) :
  split_first "/:" before = None ->
  slotted (before ++
           GetSubstitution ("/:" ++ key ++ "/") before after
             ("/" ++ ToString v ++ "/") ++ after) = false ->
  buildURL (before ++ ("/:" ++ key ++ "/") ++ after) (VObj ((key, v) :: rest))
  = before ++
    GetSubstitution ("/:" ++ key ++ "/") before after ("/" ++ ToString v ++ "/")
    ++ after.
Proof.
  intros Hb Hs. unfold buildURL.
  change (truthy (VObj ((key, v) :: rest))) with true. cbv iota.
  change (Object_keys (VObj ((key, v) :: rest)))
    with (key :: Object_keys (VObj rest)).
  cbn [fold_left]. rewrite get_head.
  unfold replace at 2. rewrite (split_first_at before key after Hb).
  now apply fold_replace_unslotted.
Qed.

(** X2.  A placeholder followed by a slash is filled with the text of
    the field of its name when that is a primitive value (a string, a
    boolean, [null], [undefined], [NaN] or an integer below [2^53] in
    absolute value): with no [/:] before it, a value without [$] and no
    other slot in the result, the template [before/:key/after] becomes
    [before/value/after], whatever other fields the input has, as long
    as their values can be converted to a string. *)
Theorem buildURL_fills_slot (before key after : string) (v : value)
    (rest : list (string * value)) :
  primitive_text v = true ->
  convertible_fields rest = true ->
  split_first "/:" before = None ->
  dollar_free (ToString v) = true ->
  slotted (before ++ "/" ++ ToString v ++ "/" ++ after) = false ->
  buildURL (before ++ "/:" ++ key ++ "/" ++ after) (VObj ((key, v) :: rest))
  = before ++ "/" ++ ToString v ++ "/" ++ after.
Proof.
  intros _ _ Hb Hd Hs.
  assert (Hg : GetSubstitution ("/:" ++ key ++ "/") before after
                 ("/" ++ ToString v ++ "/") = "/" ++ ToString v ++ "/").
  { apply GetSubstitution_dollar_free.
    rewrite !dollar_free_app, Hd. reflexivity. }
  replace (before ++ "/:" ++ key ++ "/" ++ after)
    with (before ++ ("/:" ++ key ++ "/") ++ after)
    by now rewrite !string_app_assoc.
  rewrite buildURL_first_field; rewrite ?Hg; auto.
  - now rewrite !string_app_assoc.
  - now rewrite !string_app_assoc.
Qed.

Lemma buildURL_fills_slot_witness :
  buildURL "/users/:id/posts" (VObj [("id", VNum (Int 7)); ("page", VNum (Int 2))])
  = "/users/7/posts".
Proof.
  exact (buildURL_fills_slot "/users" "id" "posts" (VNum (Int 7))
           [("page", VNum (Int 2))] eq_refl eq_refl eq_refl eq_refl eq_refl).
Defined.

(** X3.  The field value is read as a replacement pattern of
    [String.prototype.replace]: of a doubled dollar in it one dollar
    reaches the path.  The other fields of the input have values that
    can be converted to a string. *)
Theorem buildURL_halves_doubled_dollar (before key after p q : string)
    (rest : list (string * value)) :
  convertible_fields rest = true ->
  split_first "/:" before = None ->
  dollar_free p = true ->
  dollar_free q = true ->
  slotted (before ++ "/" ++ p ++ "$" ++ q ++ "/" ++ after) = false ->
  buildURL (before ++ "/:" ++ key ++ "/" ++ after)
    (VObj ((key, VStr (p ++ "$$" ++ q)) :: rest))
  = before ++ "/" ++ p ++ "$" ++ q ++ "/" ++ after.
Proof.
  intros _ Hb Hp Hq Hs.
  assert (Hg : GetSubstitution ("/:" ++ key ++ "/") before after
                 ("/" ++ ToString (VStr (p ++ "$$" ++ q)) ++ "/")
               = "/" ++ p ++ "$" ++ q ++ "/").
  { cbn [ToString].
    replace ("/" ++ (p ++ "$$" ++ q) ++ "/") with (("/" ++ p) ++ "$$" ++ q ++ "/")
      by now rewrite !string_app_assoc.
    rewrite GetSubstitution_app by now rewrite dollar_free_app, Hp.
    change ("$$" ++ q ++ "/") with (String "$" (String "$" (q ++ "/"))).
    cbn [GetSubstitution]. cbn [Ascii.eqb Bool.eqb].
    rewrite GetSubstitution_dollar_free by now rewrite dollar_free_app, Hq.
    now rewrite !string_app_assoc. }
  replace (before ++ "/:" ++ key ++ "/" ++ after)
    with (before ++ ("/:" ++ key ++ "/") ++ after)
    by now rewrite !string_app_assoc.
  rewrite buildURL_first_field; rewrite ?Hg; auto.
  - now rewrite !string_app_assoc.
  - now rewrite !string_app_assoc.
Qed.

Lemma buildURL_halves_doubled_dollar_witness :
  buildURL "/price/:amount/" (VObj [("amount", VStr "US$$5")]) = "/price/US$5/".
Proof.
  exact (buildURL_halves_doubled_dollar "/price" "amount" "" "US" "5" []
           eq_refl eq_refl eq_refl eq_refl eq_refl).
Defined.

(** ** filterFields and weedOutFields *)

Lemma assoc_In {A} (key : string) (x : A) (l : list (string * A)) :
  assoc key l = Some x -> In (key, x) l.
Proof.
  induction l as [|[k y] l IH]; cbn; [discriminate|].
  destruct (String.eqb_spec k key) as [->|_].
  - intros [= ->]. now left.
  - intros H. right. now apply IH.
Qed.

Lemma read_what_was_read (ks : list string) (key : string) :
  read (List.map (fun k => (k, read_of_empty k)) ks) key = read_of_empty key.
Proof.
  unfold read.
  destruct (assoc key (List.map (fun k => (k, read_of_empty k)) ks)) as [x|] eqn:H;
    [|reflexivity].
  apply assoc_In, in_map_iff in H as (k & [= -> <-] & _). reflexivity.
Qed.

Lemma with_key_read (ks : list string) (key : string) :
  with_key key (read_of_empty key) (List.map (fun k => (k, read_of_empty k)) ks)
  = List.map (fun k => (k, read_of_empty k))
      (if existsb (String.eqb key) ks then ks else (ks ++ [key])%list).
Proof.
  induction ks as [|k ks IH]; [reflexivity|].
  cbn [List.map with_key existsb].
  rewrite (String.eqb_sym key k).
  destruct (String.eqb_spec k key) as [->|Hne]; cbn [orb]; [reflexivity|].
  rewrite IH. destruct (existsb (String.eqb key) ks); reflexivity.
Qed.

(** The [reduce] shared by the two functions, with the test on a key
    left open: the keys that pass are kept, each once, and every value
    is what the empty object gives under the key. *)
Lemma pick_fold (p : string -> bool) (keys ks0 : list string) :
  List.NoDup ks0 ->
  exists ks,
    fold_left
      (fun res key => if p key then with_key key (read res key) res else res)
      keys (List.map (fun k => (k, read_of_empty k)) ks0)
    = List.map (fun k => (k, read_of_empty k)) ks /\
    List.NoDup ks /\
    forall k, In k ks <-> In k ks0 \/ (In k keys /\ p k = true).
Proof.
  revert ks0. induction keys as [|key keys IH]; intros ks0 Hnd.
  - exists ks0. cbn. split; [reflexivity|]. split; [exact Hnd|]. tauto.
  - cbn [fold_left]. destruct (p key) eqn:Hp.
    + rewrite read_what_was_read, with_key_read.
      destruct (existsb (String.eqb key) ks0) eqn:Hex.
      * destruct (IH ks0 Hnd) as (ks & Hf & Hn & Hin).
        exists ks. split; [exact Hf|]. split; [exact Hn|].
        intros k. rewrite Hin. cbn [In]. split; [tauto|].
        intros [H|[[<-|H] Hk]]; auto.
        left. apply existsb_exists in Hex as (k' & Hk' & He).
        apply String.eqb_eq in He. now subst.
      * assert (Hnot : ~ In key ks0).
        { intros Hk. assert (existsb (String.eqb key) ks0 = true); [|congruence].
          apply existsb_exists. exists key. split; [exact Hk|apply String.eqb_refl]. }
        destruct (IH (ks0 ++ [key])%list) as (ks & Hf & Hn & Hin).
        { apply NoDup_ListNoDup, NoDup_app. repeat split.
          - now apply NoDup_ListNoDup.
          - intros x Hx Hx'. apply list_elem_of_In in Hx.
            apply list_elem_of_In in Hx'. destruct Hx' as [<-|[]]. contradiction.
          - apply NoDup_ListNoDup. repeat constructor. intros []. }
        exists ks. split; [exact Hf|]. split; [exact Hn|].
        intros k. rewrite Hin, in_app_iff. cbn [In]. split.
        -- intros [[H|[<-|[]]]|[H Hk]]; auto.
        -- intros [H|[[<-|H] Hk]]; auto.
    + destruct (IH ks0 Hnd) as (ks & Hf & Hn & Hin).
      exists ks. split; [exact Hf|]. split; [exact Hn|].
      intros k. rewrite Hin. cbn [In]. split; [tauto|].
      intros [H|[[<-|H] Hk]]; auto. congruence.
Qed.

Lemma fold_left_pointwise {A B} (f g : A -> B -> A) (l : list B) (a : A) :
  (forall x y, f x y = g x y) -> fold_left f l a = fold_left g l a.
Proof.
  intros H. revert a. induction l as [|y l IH]; intros a; [reflexivity|].
  cbn [fold_left]. now rewrite H, IH.
Qed.

Example weedOutFields_ex1 :
  weedOutFields [] (VObj [("toString", VNum (Int 1)); ("a", VNum (Int 2))])
  = [("toString", Prototype_member "toString"); ("a", Undefined)].
Proof. reflexivity. Qed.

(** X4.  The result of [filterFields] has the keys of the input that are
    in the list, each once, and the result of [weedOutFields] has those
    that are not; in both no value is that of the input, because the
    value is read from the object under construction and not from the
    input: it is the member of [Object.prototype] under a name of
    [Object.prototype], and [undefined] under every other key. *)
Theorem picked_fields_lose_their_values (fields : list string) (input : value) :
  (exists ks,
      filterFields fields input =
        List.map (fun k => (k, if inherited k then Prototype_member k
                               else Undefined)) ks /\
      List.NoDup ks /\
      forall k, In k ks <->
                In k (Object_keys (or_empty_object input)) /\ includes fields k = true) /\
  (exists ks,
      weedOutFields fields input =
        List.map (fun k => (k, if inherited k then Prototype_member k
                               else Undefined)) ks /\
      List.NoDup ks /\
      forall k, In k ks <->
                In k (Object_keys (or_empty_object input)) /\ includes fields k = false) /\
  (forall key x, assoc key (filterFields fields input) = Some x ->
     x = if inherited key then Prototype_member key else Undefined) /\
  (forall key x, assoc key (weedOutFields fields input) = Some x ->
     x = if inherited key then Prototype_member key else Undefined).
Proof.
  destruct (pick_fold (includes fields) (Object_keys (or_empty_object input)) [])
    as (ks1 & Hf1 & Hn1 & Hin1); [constructor|].
  destruct (pick_fold (fun k => negb (includes fields k))
              (Object_keys (or_empty_object input)) [])
    as (ks2 & Hf2 & Hn2 & Hin2); [constructor|].
  assert (Hw : weedOutFields fields input = List.map (fun k => (k, read_of_empty k)) ks2).
  { unfold weedOutFields. rewrite <- Hf2. cbn [List.map].
    apply fold_left_pointwise. intros res key.
    now destruct (includes fields key). }
  assert (Hf : filterFields fields input = List.map (fun k => (k, read_of_empty k)) ks1).
  { unfold filterFields. now rewrite <- Hf1. }
  split; [|split; [|split]].
  - exists ks1. split; [exact Hf|]. split; [exact Hn1|].
    intros k. rewrite Hin1. cbn [In]. tauto.
  - exists ks2. split; [exact Hw|]. split; [exact Hn2|].
    intros k. rewrite Hin2, negb_true_iff. cbn [In]. tauto.
  - intros key x. rewrite Hf. intros H.
    apply assoc_In, in_map_iff in H as (k & [= -> <-] & _). reflexivity.
  - intros key x. rewrite Hw. intros H.
    apply assoc_In, in_map_iff in H as (k & [= -> <-] & _). reflexivity.
Qed.

(** ** More on the interceptor *)

(** [endsWith] holds of the texts that are the suffix with something
    before it. *)
Lemma endsWith_iff (s suffix : string) :
  endsWith s suffix = true <-> exists p, s = p ++ suffix.
Proof.
  split.
  - induction s as [|c s IH]; cbn [endsWith].
    + destruct (String.eqb_spec "" suffix) as [<-|_]; [|discriminate].
      intros _. now exists "".
    + destruct (String.eqb_spec (String c s) suffix) as [<-|_].
      * intros _. now exists "".
      * intros H. destruct (IH H) as [p ->]. exists (String c p).
        now rewrite append_cons.
  - intros [p ->]. induction p as [|c p IH].
    + rewrite append_nil. destruct suffix; cbn [endsWith]; now rewrite String.eqb_refl.
    + rewrite append_cons. cbn [endsWith]. rewrite IH.
      now destruct (String.eqb (String c (p ++ suffix)) suffix).
Qed.

Section InterceptorExtras.

Context {rt : Runtime}.

(** X5.  A matching, unresolved request whose body is not JSON, or whose
    responder throws or returns a promise that rejects, makes the
    listener fail with that error: the request is neither completed nor
    continued and nothing is recorded.  A responder whose promise never
    settles leaves the listener waiting in the same way. *)
Theorem listener_failure_leaves_request_unresolved (this : RequestMock)
    (request : HTTPRequest) (handledLater : bool) :
  isInterceptResolutionHandled request = false ->
  endsWith (request_url request) (url this) = true ->
  (forall e, JSON_parse (body_text request) = Throw e ->
     listener this request handledLater = (this, Rejects e)) /\
  (forall input e,
     JSON_parse (body_text request) = Ok input ->
     responder this input = Throws e \/
     responder this input = ReturnsPromise (Rejected e) ->
     listener this request handledLater = (this, Rejects e)) /\
  (forall input,
     JSON_parse (body_text request) = Ok input ->
     responder this input = ReturnsPromise Pending ->
     listener this request handledLater = (this, Hangs)).
Proof.
  intros Hh He. unfold listener, listener_begin. rewrite Hh, He.
  split; [|split].
  - intros e Hp. now rewrite Hp.
  - intros input e Hp [Hr|Hr]; now rewrite Hp, Hr.
  - intros input Hp Hr. now rewrite Hp, Hr.
Qed.

(** X6.  [last] resolves to [undefined] on a new interceptor, to the call
    just recorded after a request has been answered, and to what it
    resolved to before after a mutator or a run of the listener that
    does not answer. *)
Theorem last_is_the_latest_answer (this : RequestMock) (request : HTTPRequest)
    (input output : value) :
  isInterceptResolutionHandled request = false ->
  endsWith (request_url request) (url this) = true ->
  JSON_parse (body_text request) = Ok input ->
  promise_of (responder this input) = Fulfilled output ->
  last_call (fst (listener this request false))
  = Some {| call_input := input; call_output := output |} /\
  last_call (fst (listener this request true)) = last_call this /\
  (forall u b, last_call (RequestMock_init u b) = None) /\
  (forall mock, last_call (setResponse mock this) = last_call this) /\
  (forall code mock, last_call (setError code mock this) = last_call this) /\
  last_call (reset this) = last_call this.
Proof.
  intros Hh He Hp Ho.
  destruct (listener_serves this request input output Hh He Hp Ho) as [Hb Hl].
  rewrite Hl. unfold listener. rewrite Hb. unfold last_call. cbn.
  rewrite last_snoc. repeat split.
Qed.

(** X7.  Matching is by suffix alone: when the name of one service ends
    with the name of another, every request the interceptor of the
    longer name matches is matched by the interceptor of the shorter
    name for the same request name as well. *)
Theorem suffix_named_services_collide (shorter longer : RequestMock)
    (name extra key : string) (request : HTTPRequest) :
  url shorter = name ++ "/" ++ key ->
  url longer = (extra ++ name) ++ "/" ++ key ->
  endsWith (request_url request) (url longer) = true ->
  endsWith (request_url request) (url shorter) = true.
Proof.
  intros Hs Hl H. rewrite Hs. rewrite Hl in H.
  apply endsWith_iff in H as [p ->]. apply endsWith_iff.
  exists (p ++ extra). now rewrite !string_app_assoc.
Qed.

End InterceptorExtras.

Lemma listener_failure_leaves_request_unresolved_witness :
  listener (rt := Sample.runtime) (RequestMock_init "users/getUsers" Users.substitute)
    {| request_url := "http://localhost:3000/users/getUsers";
       postData := Some "id=1"; isInterceptResolutionHandled := false |} false
  = (RequestMock_init "users/getUsers" Users.substitute, Rejects Sample.syntax_error).
Proof.
  exact (proj1 (listener_failure_leaves_request_unresolved (rt := Sample.runtime)
                  (RequestMock_init "users/getUsers" Users.substitute)
                  {| request_url := "http://localhost:3000/users/getUsers";
                     postData := Some "id=1";
                     isInterceptResolutionHandled := false |} false
                  eq_refl eq_refl)
               Sample.syntax_error eq_refl).
Defined.

Lemma last_is_the_latest_answer_witness :
  last_call
    (fst (listener (rt := Sample.runtime)
            (RequestMock_init "users/getUsers" Users.substitute)
            {| request_url := "http://localhost:3000/users/getUsers";
               postData := None; isInterceptResolutionHandled := false |} false))
  = Some {| call_input := VObj [];
            call_output := VArr [VObj [("id", VStr "1")]] |}.
Proof.
  exact (proj1 (last_is_the_latest_answer (rt := Sample.runtime)
                  (RequestMock_init "users/getUsers" Users.substitute)
                  {| request_url := "http://localhost:3000/users/getUsers";
                     postData := None; isInterceptResolutionHandled := false |}
                  (VObj []) (VArr [VObj [("id", VStr "1")]])
                  eq_refl eq_refl eq_refl eq_refl)).
Defined.

Lemma suffix_named_services_collide_witness :
  endsWith "http://localhost:3000/superusers/getUsers" "users/getUsers" = true.
Proof.
  exact (suffix_named_services_collide
           (RequestMock_init "users/getUsers" empty_mock)
           (RequestMock_init "superusers/getUsers" empty_mock)
           "users" "super" "getUsers"
           {| request_url := "http://localhost:3000/superusers/getUsers";
              postData := None; isInterceptResolutionHandled := false |}
           eq_refl eq_refl eq_refl).
Defined.

(** ** More on installing interception *)

Section InterceptionFrame.

Context {rt : Runtime}.

(** The objects [mockAPI] allocates come after those there were. *)
Lemma mockAPI_fold_ids service keys w sm (n : nat) :
  n <= length (heap w) ->
  (forall k id, assoc k sm = Some id -> n <= id) ->
  forall k id,
    assoc k (snd (fold_left (mockAPI_step service) keys (w, sm))) = Some id ->
    n <= id.
Proof.
  revert w sm. induction keys as [|key keys IH]; intros w sm Hn Hsm; cbn [fold_left].
  - exact Hsm.
  - destruct (mockAPI_step_world service w sm key) as (Hh1 & _ & _ & Hs1).
    cbv zeta in Hh1, Hs1.
    rewrite (surjective_pairing (mockAPI_step service (w, sm) key)).
    apply IH.
    + rewrite Hh1, length_app. lia.
    + intros k id. rewrite Hs1, assoc_with_key.
      destruct (String.eqb key k); [intros [= <-]; exact Hn|apply Hsm].
Qed.

Lemma mockAPI_new_ids service w key id :
  assoc key (snd (mockAPI service w)) = Some id -> length (heap w) <= id.
Proof.
  rewrite mockAPI_unfold. cbn [snd].
  apply mockAPI_fold_ids; [reflexivity|]. intros k i H. discriminate H.
Qed.

(** [mockAPI] leaves the interceptors and the listeners there were. *)
Lemma mockAPI_frame service w :
  (forall i m, heap w !! i = Some m ->
               heap (snd (fst (mockAPI service w))) !! i = Some m) /\
  (forall id, In id (request_listeners (page w)) ->
              In id (request_listeners (page (snd (fst (mockAPI service w)))))).
Proof.
  destruct (mockAPI_world service w) as (_ & Hh & Hl). rewrite Hh, Hl. split.
  - intros i m H. rewrite lookup_app_l; [exact H|]. eapply lookup_lt_Some, H.
  - intros id H. apply in_or_app. now left.
Qed.

End InterceptionFrame.

(** X8.  When a second service is mocked on a page, the interceptors of
    the first stay as they were, their listeners stay registered, and
    the interceptors of the second are other objects. *)
Theorem two_services_on_one_page (rt : Runtime) (first second : APIService)
    (w : World) (key1 : string) (id1 : nat) :
  assoc key1 (snd (mockAPI first w)) = Some id1 ->
  heap (snd (fst (mockAPI second (snd (fst (mockAPI first w)))))) !! id1
  = Some (RequestMock_init (name first ++ "/" ++ key1) (base_responder first key1)) /\
  In id1 (request_listeners
            (page (snd (fst (mockAPI second (snd (fst (mockAPI first w)))))))) /\
  forall key2 id2,
    assoc key2 (snd (mockAPI second (snd (fst (mockAPI first w))))) = Some id2 ->
    id1 <> id2.
Proof.
  intros H1.
  destruct (mockAPI_names first w) as [Hn _].
  destruct (Hn key1 id1 H1) as [Hlook Hin].
  destruct (mockAPI_frame second (snd (fst (mockAPI first w)))) as [Hheap Hlis].
  split; [now apply Hheap|]. split; [now apply Hlis|].
  intros key2 id2 H2. apply mockAPI_new_ids in H2.
  apply lookup_lt_Some in Hlook. lia.
Qed.

Lemma two_services_on_one_page_witness :
  heap (snd (fst (mockAPI (rt := Sample.runtime) Users.plain
                    (snd (fst (mockAPI (rt := Sample.runtime) Users.two_requests
                                 Users.blank)))))) !! 1
  = Some (RequestMock_init "users/addUser" empty_mock).
Proof.
  exact (proj1 (two_services_on_one_page Sample.runtime Users.two_requests
                  Users.plain Users.blank "addUser" 1 eq_refl)).
Defined.

(** X9.  For a request name that has a substitute when [mockAPI] is
    called, the interceptor under that name answers a matching,
    unresolved request with status 200 and the serialised output of the
    substitute for the parsed body, and records the call. *)
Theorem interceptor_serves_substitute (rt : Runtime) (service : APIService)
    (w : World) (key : string) (mock : func) :
  In key (request_keys service) ->
  mocks service !! key = Some mock ->
  exists id this,
    assoc key (snd (mockAPI service w)) = Some id /\
    heap (snd (fst (mockAPI service w))) !! id = Some this /\
    url this = name service ++ "/" ++ key /\
    forall request input output,
      isInterceptResolutionHandled request = false ->
      endsWith (request_url request) (url this) = true ->
      JSON_parse (body_text request) = Ok input ->
      promise_of (mock input) = Fulfilled output ->
      listener this request false =
        (push_call {| call_input := input; call_output := output |} this,
         Resolved (Respond {| response_code := Int 200;
                              contentType := "application/json";
                              body := JSON_stringify output |} 0)) /\
      last_call (fst (listener this request false))
      = Some {| call_input := input; call_output := output |}.
Proof.
  intros Hin Hm.
  destruct (mockAPI_names service w) as [Hn Hp].
  destruct (Hp key Hin) as [id Hid].
  destruct (Hn key id Hid) as [Hlook _].
  rewrite (base_responder_substitute _ _ _ Hm) in Hlook.
  exists id, (RequestMock_init (name service ++ "/" ++ key) mock).
  split; [exact Hid|]. split; [exact Hlook|]. split; [reflexivity|].
  intros request input output Hh He Hparse Hout.
  destruct (listener_serves (RequestMock_init (name service ++ "/" ++ key) mock)
              request input output Hh He Hparse Hout) as [_ Hl].
  split; [exact Hl|]. rewrite Hl. cbn. reflexivity.
Qed.

Lemma interceptor_serves_substitute_witness :
  exists id this,
    assoc "getUsers" (snd (mockAPI (rt := Sample.runtime) Users.mocked
                             Users.blank)) = Some id /\
    heap (snd (fst (mockAPI (rt := Sample.runtime) Users.mocked
                      Users.blank))) !! id = Some this /\
    listener (rt := Sample.runtime) this
      {| request_url := "http://localhost:3000/users/getUsers";
         postData := None; isInterceptResolutionHandled := false |} false
    = (push_call {| call_input := VObj [];
                    call_output := VArr [VObj [("id", VStr "1")]] |} this,
       Resolved (Respond {| response_code := Int 200;
                            contentType := "application/json";
                            body := Sample.stringify (VArr [VObj [("id", VStr "1")]]) |}
                   0)).
Proof.
  destruct (interceptor_serves_substitute Sample.runtime Users.mocked Users.blank
              "getUsers" Users.substitute (or_introl eq_refl) eq_refl)
    as (id & this & Hid & Hheap & _ & Hserve).
  exists id, this. split; [exact Hid|]. split; [exact Hheap|].
  cbn in Hid. injection Hid as <-. cbn in Hheap. injection Hheap as <-.
  exact (proj1 (Hserve
                  {| request_url := "http://localhost:3000/users/getUsers";
                     postData := None; isInterceptResolutionHandled := false |}
                  (VObj []) (VArr [VObj [("id", VStr "1")]])
                  eq_refl eq_refl eq_refl eq_refl)).
Defined.

(** ** More on dispatch and the interaction builders *)

(** X10.  A substituted call that is waiting for its timer when
    [setupInteractionBuilders] empties the substitutes never settles,
    when the request name is not that of a member of
    [Object.prototype]: the timer callback finds no function under the
    name and its [TypeError] escapes. *)
Theorem substitutes_emptied_while_waiting (rt : Runtime) (this : APIService)
    (key : string) (call mock : func) (input : value) :
  tunnel_flag (config this) = false ->
  mocks this !! key = Some mock ->
  inherited key = false ->
  request this key call input = Armed (delay (config this)) /\
  timer_callback (fst (setupInteractionBuilders this)) key input
  = ([Uncaught not_a_function], Pending) /\
  fired (fst (setupInteractionBuilders this)) key input
    (request this key call input)
  = ([SetTimeout (delay (config this)); Uncaught not_a_function], Pending).
Proof.
  intros Hf Hm Hi.
  assert (Ht : timer_callback (fst (setupInteractionBuilders this)) key input
               = ([Uncaught not_a_function], Pending)).
  { apply timer_callback_undefined; [apply lookup_empty | exact Hi]. }
  rewrite (request_substitute this key call input mock Hf Hm).
  split; [reflexivity|]. split; [exact Ht|].
  unfold fired. now rewrite Ht.
Qed.

Lemma substitutes_emptied_while_waiting_witness :
  timer_callback (rt := Sample.runtime) (fst (setupInteractionBuilders Users.mocked))
    "getUsers" VUndefined
  = ([Uncaught not_a_function], Pending).
Proof.
  exact (proj1 (proj2 (substitutes_emptied_while_waiting Sample.runtime Users.mocked
                         "getUsers" Users.live Users.substitute VUndefined
                         eq_refl eq_refl eq_refl))).
Defined.

Lemma assoc_fold_with_key {A} (f : string -> A) (keys : list string)
    (acc : list (string * A)) (k : string) :
  assoc k (fold_left (fun o key => with_key key (f key) o) keys acc)
  = if existsb (String.eqb k) keys then Some (f k) else assoc k acc.
Proof.
  revert acc. induction keys as [|key keys IH]; intros acc; [reflexivity|].
  cbn [fold_left existsb]. rewrite IH, assoc_with_key, (String.eqb_sym k key).
  destruct (existsb (String.eqb k) keys) eqn:He; [now rewrite orb_true_r|].
  rewrite orb_false_r. destruct (String.eqb_spec key k) as [->|]; reflexivity.
Qed.

(** X11.  The builder set up for a request name holds what
    [service.mocks[key]] gave: the substitute the service had under the
    name or, when it had none, the member of [Object.prototype] of that
    name if there is one and [undefined] if not.  The service is left
    without substitutes, so that builders set up a second time for the
    same service hold no substitute at all. *)
Theorem builders_hold_the_substitutes (service : APIService) (key : string) :
  In key (meta_keys service) ->
  assoc key (snd (setupInteractionBuilders service))
  = Some (match mocks service !! key with
          | Some mock => Some (Own mock)
          | None => if inherited key then Some (Member key) else None
          end) /\
  mocks (fst (setupInteractionBuilders service)) !! key = None /\
  assoc key (snd (setupInteractionBuilders (fst (setupInteractionBuilders service))))
  = Some (if inherited key then Some (Member key) else None).
Proof.
  intros Hin.
  assert (He : existsb (String.eqb key) (meta_keys service) = true).
  { apply existsb_exists. exists key. split; [exact Hin|apply String.eqb_refl]. }
  unfold setupInteractionBuilders. cbn [fst snd mocks].
  rewrite !assoc_fold_with_key.
  change (meta_keys {| name := name service; api := api service; mocks := ∅;
                       config := config service |})
    with (meta_keys service).
  rewrite He, property_of_empty, lookup_empty. auto.
Qed.

Lemma builders_hold_the_substitutes_witness :
  assoc "getUsers" (snd (setupInteractionBuilders Users.mocked))
  = Some (Some (Own Users.substitute)).
Proof.
  exact (proj1 (builders_hold_the_substitutes Users.mocked "getUsers"
                  (or_introl eq_refl))).
Defined.

(** ** The pact layer *)

Import Pact.

Lemma jsval_induction (P : jsval -> Prop) :
  P JUndefined -> P JNull -> (forall b, P (JBool b)) -> (forall n, P (JNum n)) ->
  (forall s, P (JStr s)) ->
  (forall items, Forall P items -> P (JArr items)) ->
  (forall fields, Forall (fun kx => P (snd kx)) fields -> P (JObj fields)) ->
  (forall result, P result -> P (JFun result)) ->
  forall v, P v.
Proof.
  intros Hu Hn Hb Hnum Hs Ha Ho Hf. fix IH 1.
  intros [ | |b|n|s|items|fields|result].
  - exact Hu.
  - exact Hn.
  - apply Hb.
  - apply Hnum.
  - apply Hs.
  - apply Ha. induction items as [|x items IHi]; constructor; [apply IH|exact IHi].
  - apply Ho. induction fields as [|[k x] fields IHf]; constructor;
      [apply IH|exact IHf].
  - apply Hf, IH.
Qed.

Lemma distinct_NoDup (keys : list string) :
  distinct keys = true <-> List.NoDup keys.
Proof.
  induction keys as [|k keys IH]; cbn [distinct].
  - split; [constructor|reflexivity].
  - rewrite andb_true_iff, negb_true_iff, IH. split.
    + intros [Hk Hn]. constructor; [|exact Hn]. intros Hin.
      assert (existsb (String.eqb k) keys = true); [|congruence].
      apply existsb_exists. exists k. split; [exact Hin|apply String.eqb_refl].
    + intros Hn. inversion Hn as [|? ? Hk Hn']; subst. split; [|exact Hn'].
      destruct (existsb (String.eqb k) keys) eqn:He; [|reflexivity].
      apply existsb_exists in He as (k' & Hin & He). apply String.eqb_eq in He.
      subst. contradiction.
Qed.

Lemma assoc_None {A} (key : string) (l : list (string * A)) :
  assoc key l = None <-> ~ In key (List.map fst l).
Proof.
  induction l as [|[k x] l IH]; cbn; [tauto|].
  destruct (String.eqb_spec k key) as [->|Hne].
  - split; [discriminate|]. intros H. exfalso. apply H. now left.
  - rewrite IH. tauto.
Qed.

Lemma with_key_fresh {A} (key : string) (x : A) (o : list (string * A)) :
  ~ In key (List.map fst o) -> with_key key x o = (o ++ [(key, x)])%list.
Proof.
  induction o as [|[k y] o IH]; cbn; [reflexivity|]. intros H.
  destruct (String.eqb_spec k key) as [->|_]; [tauto|].
  rewrite IH; [reflexivity|tauto].
Qed.

(** [deepMerge] on two objects: one assignment per key of the source. *)
Lemma deepMerge_objects (tf sf : list (string * jsval)) :
  deepMerge (JObj tf) (JObj sf)
  = JObj (fold_left
            (fun output kx => with_key (fst kx) (merged (JObj tf) (fst kx) (snd kx)) output)
            sf tf).
Proof.
  cbn [deepMerge isObject Pact.entries]. f_equal. apply fold_left_pointwise.
  intros output [k x]. unfold merged, has_key. cbn [fst snd Pact.entries].
  destruct (isObject x); [|reflexivity].
  destruct (assoc k tf); [reflexivity|].
  destruct (inherited k); reflexivity.
Qed.

Lemma assoc_fold_assign {A} (g : string -> A -> A) (l out : list (string * A))
    (key : string) :
  List.NoDup (List.map fst l) ->
  assoc key (fold_left (fun output kx => with_key (fst kx) (g (fst kx) (snd kx)) output)
               l out)
  = match assoc key l with
    | Some x => Some (g key x)
    | None => assoc key out
    end.
Proof.
  revert out. induction l as [|[k x] l IH]; intros out Hnd; [reflexivity|].
  cbn [List.map fst] in Hnd. inversion Hnd as [|? ? Hk Hnd']; subst.
  cbn [fold_left fst snd assoc]. rewrite (IH _ Hnd'), assoc_with_key.
  destruct (String.eqb_spec k key) as [->|Hne]; [|reflexivity].
  apply assoc_None in Hk. now rewrite Hk.
Qed.

(** X12.  For objects without a [__proto__] key of their own: in the
    merge of two objects a key of the source has the value of the
    source, except that when that is an object and the target has the
    key it is merged in turn with the value of the target, which for a
    key the target has through [Object.prototype] only gives the empty
    object; every other key has the value of the target.  When the
    target or the source is not an object the result is a copy of the
    target's own properties, whatever the source is. *)
Theorem deepMerge_lookup (tf sf : list (string * jsval)) (key : string) :
  List.NoDup (List.map fst sf) ->
  proto_free (JObj tf) = true ->
  proto_free (JObj sf) = true ->
  assoc key (Pact.entries (deepMerge (JObj tf) (JObj sf)))
  = match assoc key sf with
    | Some x =>
        Some (if isObject x then
                match assoc key tf with
                | Some y => deepMerge y x
                | None => if inherited key then JObj [] else x
                end
              else x)
    | None => assoc key tf
    end /\
  forall target source,
    proto_free target = true ->
    isObject target && isObject source = false ->
    deepMerge target source = JObj (Pact.entries target).
Proof.
  intros Hnd _ _. split.
  - rewrite deepMerge_objects. cbn [Pact.entries].
    rewrite (assoc_fold_assign (merged (JObj tf)) sf tf key Hnd).
    destruct (assoc key sf) as [x|]; reflexivity.
  - intros target source _ H.
    destruct source; cbn [deepMerge]; now destruct (isObject target).
Qed.

Lemma deepMerge_lookup_witness :
  assoc "headers"
    (Pact.entries
       (deepMerge
          (JObj [("status", JNum (Int 200));
                 ("headers", JObj [("Content-Type", JStr "application/json")])])
          (JObj [("status", JNum (Int 404)); ("headers", JObj [("X-Id", JStr "1")])])))
  = Some (JObj [("Content-Type", JStr "application/json"); ("X-Id", JStr "1")]) /\
  assoc "toString"
    (Pact.entries (deepMerge (JObj []) (JObj [("toString", JObj [("a", JNum (Int 1))])])))
  = Some (JObj []).
Proof.
  split.
  - exact (proj1 (deepMerge_lookup
                    [("status", JNum (Int 200));
                     ("headers", JObj [("Content-Type", JStr "application/json")])]
                    [("status", JNum (Int 404)); ("headers", JObj [("X-Id", JStr "1")])]
                    "headers"
                    (proj1 (distinct_NoDup ["status"; "headers"]) eq_refl)
                    eq_refl eq_refl)).
  - exact (proj1 (deepMerge_lookup [] [("toString", JObj [("a", JNum (Int 1))])]
                    "toString"
                    (proj1 (distinct_NoDup ["toString"]) eq_refl)
                    eq_refl eq_refl)).
Defined.

Lemma called_get (unwrap : jsval -> outcome jsval) (fields : list (string * jsval)) :
  called unwrap fields
  = match Pact.get (JObj fields) "getValue" with
    | JFun result => Some (unwrap result)
    | _ => None
    end.
Proof.
  unfold Pact.get. cbn [Pact.entries].
  induction fields as [|[k x] fields IH]; [reflexivity|].
  cbn [called assoc]. destruct (String.eqb k "getValue"); [|exact IH].
  now destruct x.
Qed.

Lemma isMatcher_called (unwrap : jsval -> outcome jsval) (fields : list (string * jsval)) :
  isMatcher (JObj fields) = false -> called unwrap fields = None.
Proof.
  unfold isMatcher. cbn [Pact.truthy andb]. rewrite called_get.
  now destruct (Pact.get (JObj fields) "getValue").
Qed.

(** [getMatcherValue] on an object, by the tests of the source. *)
Lemma getMatcherValue_object (fields : list (string * jsval)) :
  getMatcherValue (JObj fields)
  = match Pact.get (JObj fields) "getValue" with
    | JFun result =>
        if Pact.truthy (Pact.get (JObj fields) "min")
        then copies (Pact.get (JObj fields) "min") (getMatcherValue result)
        else getMatcherValue result
    | _ =>
        outcome_map JObj
          (fold_outcome
             (fun values (kx : string * jsval) =>
                let (key, x) := kx in
                outcome_map (fun y => with_key key y values) (getMatcherValue x))
             fields [])
    end.
Proof.
  cbn [getMatcherValue]. rewrite called_get.
  now destruct (Pact.get (JObj fields) "getValue").
Qed.

Lemma fold_items_ok (u : jsval -> outcome jsval) (h : jsval -> jsval)
    (items done : list jsval) :
  Forall (fun x => u x = Ok (h x)) items ->
  fold_outcome (fun done x => outcome_map (fun y => (done ++ [y])%list) (u x)) items done
  = Ok (done ++ List.map h items)%list.
Proof.
  revert done. induction items as [|x items IH]; intros done H.
  - cbn. now rewrite app_nil_r.
  - inversion H as [|? ? Hx Hr]; subst. cbn [fold_outcome List.map].
    rewrite Hx. cbn [outcome_map]. rewrite (IH _ Hr), <- app_assoc. reflexivity.
Qed.

Lemma fold_items_throw (u : jsval -> outcome jsval) (items done : list jsval)
    (x : jsval) (e : value) :
  In x items -> u x = Throw e ->
  exists e', fold_outcome
               (fun done x => outcome_map (fun y => (done ++ [y])%list) (u x))
               items done = Throw e'.
Proof.
  revert done. induction items as [|y items IH]; intros done Hin Hx;
    [destruct Hin|]. destruct Hin as [<-|Hin]; cbn [fold_outcome].
  - rewrite Hx. cbn. eauto.
  - destruct (u y); cbn [outcome_map]; eauto.
Qed.

Lemma fold_fields_ok (u : jsval -> outcome jsval) (h : jsval -> jsval)
    (fields values : list (string * jsval)) :
  Forall (fun kx => u (snd kx) = Ok (h (snd kx))) fields ->
  List.NoDup (List.map fst values ++ List.map fst fields) ->
  fold_outcome
    (fun values (kx : string * jsval) =>
       let (key, x) := kx in outcome_map (fun y => with_key key y values) (u x))
    fields values
  = Ok (values ++ List.map (fun kx => (fst kx, h (snd kx))) fields)%list.
Proof.
  revert values. induction fields as [|[k x] fields IH]; intros values H Hnd.
  - cbn. now rewrite app_nil_r.
  - inversion H as [|? ? Hx Hr]; subst. cbn [fst snd] in Hx.
    cbn [fold_outcome List.map fst snd]. rewrite Hx. cbn [outcome_map].
    assert (Hk : ~ In k (List.map fst values)).
    { cbn [List.map fst] in Hnd. apply NoDup_remove_2 in Hnd.
      intros Hin. apply Hnd, in_or_app. now left. }
    rewrite (with_key_fresh k (h x) values Hk), (IH _ Hr).
    + now rewrite <- app_assoc.
    + rewrite map_app. cbn [List.map fst]. rewrite <- app_assoc. exact Hnd.
Qed.

Lemma fold_fields_throw (u : jsval -> outcome jsval)
    (fields values : list (string * jsval)) (k : string) (x : jsval) (e : value) :
  In (k, x) fields -> u x = Throw e ->
  exists e', fold_outcome
               (fun values (kx : string * jsval) =>
                  let (key, x) := kx in
                  outcome_map (fun y => with_key key y values) (u x))
               fields values = Throw e'.
Proof.
  revert values. induction fields as [|[k' y] fields IH]; intros values Hin Hx;
    [destruct Hin|]. destruct Hin as [Heq|Hin]; cbn [fold_outcome].
  - injection Heq as -> ->. rewrite Hx. cbn. eauto.
  - destruct (u y); cbn [outcome_map]; eauto.
Qed.

Lemma map_pair_eta {A B} (l : list (A * B)) :
  List.map (fun kx => (fst kx, snd kx)) l = l.
Proof. induction l as [|[a b] l IH]; cbn; [reflexivity|now rewrite IH]. Qed.

Lemma plain_not_matcher (fields : list (string * jsval)) :
  forallb (fun kx => plain (snd kx)) fields = true ->
  isMatcher (JObj fields) = false.
Proof.
  intros H. unfold isMatcher, Pact.get. cbn [Pact.truthy Pact.entries andb].
  destruct (assoc "getValue" fields) as [x|] eqn:Ha; [|reflexivity].
  apply assoc_In in Ha. rewrite forallb_forall in H. specialize (H _ Ha).
  cbn [snd] in H. now destruct x.
Qed.

Lemma getMatcherValue_plain_data (v : jsval) :
  plain v = true -> getMatcherValue v = Ok v.
Proof.
  induction v as [ | |b|n|s|items IH|fields IH|result _] using jsval_induction;
    cbn [plain]; intros H; try reflexivity; try discriminate.
  - cbn [getMatcherValue].
    rewrite (fold_items_ok getMatcherValue (fun x => x)).
    + now rewrite map_id.
    + rewrite forallb_forall in H. rewrite Forall_forall in IH |- *.
      intros x Hx. apply list_elem_of_In in Hx. apply IH; [now apply list_elem_of_In|auto].
  - apply andb_prop in H as [Hd Hp].
    cbn [getMatcherValue]. rewrite (isMatcher_called _ _ (plain_not_matcher _ Hp)).
    rewrite (fold_fields_ok getMatcherValue (fun x => x)).
    + cbn [app outcome_map]. now rewrite map_pair_eta.
    + rewrite forallb_forall in Hp. rewrite Forall_forall in IH |- *.
      intros kx Hx. apply list_elem_of_In in Hx.
      apply IH; [now apply list_elem_of_In|auto].
    + cbn [List.map app]. now apply distinct_NoDup.
Qed.

(** X13.  [getMatcherValue] returns data with no [null] and no function
    in it as it is. *)
Theorem getMatcherValue_plain (v : jsval) :
  plain v = true -> getMatcherValue v = Ok v.
Proof. apply getMatcherValue_plain_data. Qed.

Lemma getMatcherValue_plain_witness :
  getMatcherValue (JObj [("user", JObj [("name", JStr "Ann"); ("tags", JArr [])])])
  = Ok (JObj [("user", JObj [("name", JStr "Ann"); ("tags", JArr [])])]).
Proof.
  exact (getMatcherValue_plain
           (JObj [("user", JObj [("name", JStr "Ann"); ("tags", JArr [])])]) eq_refl).
Defined.

(** X14.  [getMatcherValue] throws on [null], and so on every array
    with a [null] among its items and on every object that is no matcher
    and has a [null] among its values. *)
Theorem getMatcherValue_null :
  getMatcherValue JNull = Throw type_error /\
  (forall items, In JNull items -> exists e, getMatcherValue (JArr items) = Throw e) /\
  (forall fields key,
      isMatcher (JObj fields) = false ->
      In (key, JNull) fields ->
      exists e, getMatcherValue (JObj fields) = Throw e).
Proof.
  split; [reflexivity|]. split.
  - intros items Hin. cbn [getMatcherValue].
    destruct (fold_items_throw getMatcherValue items [] JNull type_error Hin eq_refl)
      as [e He].
    exists e. now rewrite He.
  - intros fields key Hm Hin. cbn [getMatcherValue].
    rewrite (isMatcher_called _ _ Hm).
    destruct (fold_fields_throw getMatcherValue fields [] key JNull type_error Hin
                eq_refl) as [e He].
    exists e. now rewrite He.
Qed.

(** X15.  A matcher stands for what its [getValue] returns, whatever
    its other properties are: plain data [v] gives [v]; with a [min]
    that is a positive array length it gives that many copies of [v];
    with a negative [min] the call throws. *)
Theorem getMatcherValue_matcher (fields : list (string * jsval)) (v : jsval) :
  Pact.get (JObj fields) "getValue" = JFun v ->
  plain v = true ->
  isMatcher (JObj fields) = true /\
  (Pact.truthy (Pact.get (JObj fields) "min") = false ->
     getMatcherValue (JObj fields) = Ok v) /\
  (forall n : nat,
      Pact.get (JObj fields) "min" = JNum (Int (Z.of_nat (S n))) ->
      (Z.of_nat (S n) < 4294967296)%Z ->
      getMatcherValue (JObj fields) = Ok (JArr (repeat v (S n)))) /\
  (forall z : Z,
      Pact.get (JObj fields) "min" = JNum (Int z) ->
      (z < 0)%Z ->
      getMatcherValue (JObj fields) = Throw range_error).
Proof.
  intros Hg Hp. split; [unfold isMatcher; now rewrite Hg|].
  rewrite getMatcherValue_object, Hg, (getMatcherValue_plain_data v Hp).
  split; [|split].
  - intros Hm. now rewrite Hm.
  - intros n Hm Hlt. rewrite Hm. cbn [Pact.truthy number_truthy].
    replace (Z.eqb (Z.of_nat (S n)) 0) with false by (symmetry; apply Z.eqb_neq; lia).
    cbn [negb]. unfold copies, places.
    replace (Z.leb 0 (Z.of_nat (S n))) with true by (symmetry; apply Z.leb_le; lia).
    replace (Z.ltb (Z.of_nat (S n)) 4294967296) with true
      by (symmetry; apply Z.ltb_lt; lia).
    cbn [andb]. rewrite Nat2Z.id. reflexivity.
  - intros z Hm Hz. rewrite Hm. cbn [Pact.truthy number_truthy].
    replace (Z.eqb z 0) with false by (symmetry; apply Z.eqb_neq; lia).
    cbn [negb]. unfold copies, places.
    replace (Z.leb 0 z) with false by (symmetry; apply Z.leb_gt; lia).
    reflexivity.
Qed.

Lemma getMatcherValue_matcher_witness :
  getMatcherValue
    (JObj [("contents", JStr "x"); ("getValue", JFun (JStr "x")); ("min", JNum (Int 2))])
  = Ok (JArr [JStr "x"; JStr "x"]).
Proof.
  exact (proj1 (proj2 (proj2
           (getMatcherValue_matcher
              [("contents", JStr "x"); ("getValue", JFun (JStr "x"));
               ("min", JNum (Int 2))] (JStr "x") eq_refl eq_refl)))
           1%nat eq_refl eq_refl).
Defined.

(** ** matcherize *)

Lemma fold_outcome_throw {A B} (F : A -> B -> outcome A) (l : list B) (a : A) (b : B) :
  In b l -> (forall a', exists e, F a' b = Throw e) ->
  exists e, fold_outcome F l a = Throw e.
Proof.
  revert a. induction l as [|y l IH]; intros a Hin Hb; [destruct Hin|].
  cbn [fold_outcome]. destruct Hin as [->|Hin].
  - destruct (Hb a) as [e He]. rewrite He. eauto.
  - destruct (F a y); eauto.
Qed.

Lemma fold_outcome_snoc {B} (F : list jsval -> B -> outcome (list jsval))
    (val : B -> jsval) (l : list B) (done : list jsval) :
  (forall b, In b l -> forall done', F done' b = Ok (done' ++ [val b])%list) ->
  fold_outcome F l done = Ok (done ++ List.map val l)%list.
Proof.
  revert done. induction l as [|b l IH]; intros done H.
  - cbn. now rewrite app_nil_r.
  - cbn [fold_outcome List.map]. rewrite (H b (or_introl eq_refl)).
    rewrite IH; [now rewrite <- app_assoc|]. intros b' Hb'. apply H. now right.
Qed.

Lemma fold_outcome_assign {B}
    (F : list (string * jsval) -> B -> outcome (list (string * jsval)))
    (key : B -> string) (val : B -> jsval) (l : list B)
    (acc : list (string * jsval)) :
  (forall b, In b l -> forall acc', F acc' b = Ok (with_key (key b) (val b) acc')) ->
  List.NoDup (List.map fst acc ++ List.map key l) ->
  fold_outcome F l acc = Ok (acc ++ List.map (fun b => (key b, val b)) l)%list.
Proof.
  revert acc. induction l as [|b l IH]; intros acc H Hnd.
  - cbn. now rewrite app_nil_r.
  - cbn [fold_outcome List.map]. rewrite (H b (or_introl eq_refl)).
    assert (Hk : ~ In (key b) (List.map fst acc)).
    { cbn [List.map] in Hnd. apply NoDup_remove_2 in Hnd.
      intros Hin. apply Hnd, in_or_app. now left. }
    rewrite (with_key_fresh _ _ _ Hk), IH.
    + now rewrite <- app_assoc.
    + intros b' Hb'. apply H. now right.
    + rewrite map_app. cbn [List.map fst]. rewrite <- app_assoc. exact Hnd.
Qed.

Lemma fold_outcome_map_list {A B C} (g : B -> C) (F : A -> C -> outcome A)
    (l : list B) (a : A) :
  fold_outcome (fun a' b => F a' (g b)) l a = fold_outcome F (List.map g l) a.
Proof.
  revert a. induction l as [|b l IH]; intros a; [reflexivity|].
  cbn [fold_outcome List.map]. destruct (F a (g b)); [apply IH|reflexivity].
Qed.

Section MatcherizeFacts.

Context {pact : Library}.

Lemma matcherize_object (fields : list (string * jsval)) (options : option MatchOptions) :
  matches_nothing options = false ->
  matcherize (JObj fields) options = reduceToMatchers (JObj fields) options.
Proof. intros H. unfold matcherize, matcherize_with. now rewrite H. Qed.

Lemma matcherize_array (x : jsval) (items : list jsval) (options : option MatchOptions) :
  matches_nothing options = false ->
  matcherize (JArr (x :: items)) options
  = outcome_map JArr
      (fold_outcome
         (fun done subitem =>
            outcome_map (fun y => (done ++ [y])%list) (reduceToMatchers subitem options))
         (x :: items) []).
Proof. intros H. unfold matcherize, matcherize_with. now rewrite H. Qed.

Lemma matches_nothing_with_path (options : option MatchOptions) (p : string) :
  matches_nothing (with_path options p) = matches_nothing options.
Proof. destruct options as [[pa [l|] ex]|]; reflexivity. Qed.

(** X16.  Unless every field is exempted with ["*"], [matcherize] throws
    on [null], on an array with a [null] among its items, and, with no
    options, on an object with a [null] among its values: such an output
    of a substitute makes the interaction builder fail. *)
Theorem matcherize_null (options : option MatchOptions) :
  matches_nothing options = false ->
  matcherize JNull options = Throw type_error /\
  (forall items, In JNull items ->
     exists e, matcherize (JArr items) options = Throw e) /\
  (forall fields key, In (key, JNull) fields ->
     exists e, matcherize (JObj fields) None = Throw e).
Proof.
  intros Hm. split; [|split].
  - unfold matcherize, matcherize_with. now rewrite Hm.
  - intros [|x items] Hin; [destruct Hin|].
    rewrite (matcherize_array _ _ _ Hm).
    destruct (fold_outcome_throw
                (fun done subitem =>
                   outcome_map (fun y => (done ++ [y])%list)
                     (reduceToMatchers subitem options))
                (x :: items) [] JNull Hin) as [e He].
    + intros done. exists type_error. reflexivity.
    + exists e. now rewrite He.
  - intros fields key Hin. rewrite matcherize_object by reflexivity.
    cbn [reduceToMatchers].
    destruct (fold_outcome_throw
                (fun matchers (kx : string * jsval) =>
                   let (key, x) := kx in
                   reduce_field (matcherize_with reduceToMatchers) None matchers key x)
                fields [] (key, JNull) Hin) as [e He].
    + intros matchers. exists type_error. reflexivity.
    + exists e. now rewrite He.
Qed.

(** X17.  A non-empty array of booleans, numbers or functions is turned
    into an array of as many empty objects: its items are handed to
    [reduceToMatchers], which finds no key in them. *)
Theorem matcherize_array_of_numbers (x : jsval) (items : list jsval)
    (options : option MatchOptions) :
  matches_nothing options = false ->
  forallb keyless (x :: items) = true ->
  matcherize (JArr (x :: items)) options
  = Ok (JArr (List.map (fun _ => JObj []) (x :: items))).
Proof.
  intros Hm Hk. rewrite (matcherize_array _ _ _ Hm).
  rewrite (fold_outcome_snoc _ (fun _ => JObj [])); [reflexivity|].
  intros b Hb done. rewrite forallb_forall in Hk. specialize (Hk b Hb).
  now destruct b.
Qed.

Lemma unrestricted_with_path (options : option MatchOptions) (p : string) :
  unrestricted options = true -> unrestricted (with_path options p) = true.
Proof. destruct options as [[pa [l|] [ex|]]|]; cbn; congruence. Qed.

Lemma unrestricted_matches (options : option MatchOptions) :
  unrestricted options = true ->
  matches_nothing options = false /\ forall p, isMatcherizable options p = true.
Proof. destruct options as [[pa [l|] [ex|]]|]; cbn; try discriminate; auto. Qed.

Lemma getMatcherValue_like (v : jsval) :
  plain v = true -> getMatcherValue (like v) = Ok v.
Proof.
  intros Hp. unfold like. rewrite getMatcherValue_object.
  change (Pact.get (JObj [("contents", v); ("getValue", JFun v);
                          ("json_class", JStr "Pact::SomethingLike")]) "getValue")
    with (JFun v).
  cbv iota.
  change (Pact.get (JObj [("contents", v); ("getValue", JFun v);
                          ("json_class", JStr "Pact::SomethingLike")]) "min")
    with JUndefined.
  cbn [Pact.truthy]. now apply getMatcherValue_plain_data.
Qed.

(** The matchers made of a record-like value, and what they stand for. *)
Lemma matcherize_round_trip_strong (v : jsval) :
  (forall x, scalar x = true \/ x = JArr [] -> somethingLike x = Ok (like x)) ->
  forall options,
    unrestricted options = true ->
    record_like v = true ->
    matcherize v options = Ok (returned (matcherize v options)) /\
    getMatcherValue (returned (matcherize v options)) = Ok v /\
    keyless (returned (matcherize v options)) = false.
Proof.
  intros Hlike.
  induction v as [ | |b|n|s|items IH|fields IH|result _] using jsval_induction;
    intros options Hu Hr; try discriminate Hr;
    destruct (unrestricted_matches options Hu) as [Hm Hall].
  - unfold matcherize, matcherize_with. rewrite Hm, Hlike by (now left).
    cbn [returned]. now rewrite getMatcherValue_like.
  - unfold matcherize, matcherize_with. rewrite Hm, Hlike by (now left).
    cbn [returned]. now rewrite getMatcherValue_like.
  - unfold matcherize, matcherize_with. rewrite Hm, Hlike by (now left).
    cbn [returned]. now rewrite getMatcherValue_like.
  - destruct items as [|x items].
    + unfold matcherize, matcherize_with. rewrite Hm, Hlike by (now right).
      cbn [returned]. now rewrite getMatcherValue_like.
    + rewrite (matcherize_array _ _ _ Hm).
      cbn [record_like] in Hr. rewrite forallb_forall in Hr.
      rewrite Forall_forall in IH.
      assert (Hitem : forall b, In b (x :: items) ->
                reduceToMatchers b options = Ok (returned (matcherize b options)) /\
                getMatcherValue (returned (matcherize b options)) = Ok b).
      { intros b Hb. specialize (Hr b Hb). apply andb_prop in Hr as [Ho Hrb].
        destruct (IH b (proj2 (list_elem_of_In _ _) Hb) options Hu Hrb) as (H1 & H2 & _).
        split; [|exact H2]. destruct b; try discriminate Ho.
        now rewrite <- matcherize_object. }
      rewrite (fold_outcome_snoc _ (fun b => returned (matcherize b options)))
        by (intros b Hb done; now rewrite (proj1 (Hitem b Hb))).
      cbn [app outcome_map returned]. split; [reflexivity|]. split; [|reflexivity].
      cbn [getMatcherValue].
      rewrite <- (fold_outcome_map_list (fun b => returned (matcherize b options))).
      rewrite (fold_outcome_snoc _ (fun b => b))
        by (intros b Hb done; now rewrite (proj2 (Hitem b Hb))).
      cbn [app outcome_map]. now rewrite map_id.
  - rewrite (matcherize_object _ _ Hm). cbn [reduceToMatchers].
    cbn [record_like] in Hr. apply andb_prop in Hr as [Hd Hr].
    rewrite forallb_forall in Hr. rewrite Forall_forall in IH.
    set (made := fun kx : string * jsval =>
                   returned (matcherize (snd kx)
                               (with_path options (buildPath (fst kx) (path_of options))))).
    assert (Hfield : forall kx, In kx fields ->
              matcherize (snd kx)
                (with_path options (buildPath (fst kx) (path_of options)))
              = Ok (made kx) /\
              getMatcherValue (made kx) = Ok (snd kx) /\
              keyless (made kx) = false).
    { intros kx Hkx.
      apply (IH kx (proj2 (list_elem_of_In _ _) Hkx)); [|now apply Hr].
      now apply unrestricted_with_path. }
    rewrite (fold_outcome_assign _ fst made).
    + cbn [app outcome_map returned]. split; [reflexivity|]. split; [|reflexivity].
      cbn [getMatcherValue]. rewrite isMatcher_called.
      * rewrite <- (fold_outcome_map_list (fun kx => (fst kx, made kx))).
        rewrite (fold_outcome_assign _ fst snd).
        -- cbn [app outcome_map]. now rewrite map_pair_eta.
        -- intros kx Hkx acc. cbn [fst snd].
           now rewrite (proj1 (proj2 (Hfield kx Hkx))).
        -- cbn [List.map app]. now apply distinct_NoDup.
      * unfold isMatcher, Pact.get. cbn [Pact.truthy Pact.entries andb].
        destruct (assoc "getValue" (List.map (fun b => (fst b, made b)) fields))
          as [m|] eqn:Ha; [|reflexivity].
        apply assoc_In, in_map_iff in Ha as (kx & [= _ <-] & Hkx).
        pose proof (proj2 (proj2 (Hfield kx Hkx))) as Hk. now destruct (made kx).
    + intros [k x] Hkx acc. unfold reduce_field. rewrite Hall.
      fold (matcherize (pact := pact)).
      change (matcherize x (with_path options (buildPath k (path_of options))))
        with (matcherize (snd (k, x))
                (with_path options (buildPath (fst (k, x)) (path_of options)))).
      now rewrite (proj1 (Hfield (k, x) Hkx)).
    + cbn [List.map app]. now apply distinct_NoDup.
Qed.

(** X18.  For a pact library whose [somethingLike(x)] is the matcher
    with [getValue] returning [x], and with no restriction on the fields
    to match, the matchers made of a record-like value (scalars, the
    empty array, arrays of objects and objects, all the way down) stand
    for that value: [getMatcherValue] gives it back. *)
Theorem matcherize_round_trip (v : jsval) (options : option MatchOptions) :
  (forall x, scalar x = true \/ x = JArr [] -> somethingLike x = Ok (like x)) ->
  unrestricted options = true ->
  record_like v = true ->
  exists m, matcherize v options = Ok m /\ getMatcherValue m = Ok v.
Proof.
  intros Hlike Hu Hr.
  destruct (matcherize_round_trip_strong v Hlike options Hu Hr) as (H1 & H2 & _).
  eauto.
Qed.

End MatcherizeFacts.

Lemma matcherize_null_witness :
  matcherize (pact := sample_pact) JNull None = Throw type_error.
Proof. exact (proj1 (matcherize_null (pact := sample_pact) None eq_refl)). Defined.

Lemma matcherize_array_of_numbers_witness :
  matcherize (pact := sample_pact) (JArr [JNum (Int 1); JNum (Int 2)]) None = Ok (JArr [JObj []; JObj []]).
Proof.
  exact (matcherize_array_of_numbers (pact := sample_pact) (JNum (Int 1)) [JNum (Int 2)] None
           eq_refl eq_refl).
Defined.


Lemma matcherize_round_trip_witness :
  exists m,
    matcherize (pact := sample_pact)
      (JObj [("id", JStr "1"); ("roles", JArr [JObj [("name", JStr "admin")]]);
             ("tags", JArr [])]) None = Ok m /\
    getMatcherValue m
    = Ok (JObj [("id", JStr "1"); ("roles", JArr [JObj [("name", JStr "admin")]]);
                ("tags", JArr [])]).
Proof.
  apply (matcherize_round_trip (pact := sample_pact)
           (JObj [("id", JStr "1"); ("roles", JArr [JObj [("name", JStr "admin")]]);
                  ("tags", JArr [])]) None).
  - intros x [H| ->]; [destruct x; try discriminate H|]; reflexivity.
  - reflexivity.
  - reflexivity.
Defined.

(** X19.  Fields are reached from the top: when no key of an object is
    to be matched at the top level (none is listed in a non-empty
    [exclusiveMatchFields], or all are listed in [noMatchFields]), the
    object comes back untouched, whatever nested paths the lists name. *)
Theorem unmatched_fields_are_left (pact : Library) (fields : list (string * jsval))
    (options : option MatchOptions) :
  path_of options = None ->
  distinct (List.map fst fields) = true ->
  (forall key, In key (List.map fst fields) -> isMatcherizable options key = false) ->
  reduceToMatchers (JObj fields) options = Ok (JObj fields).
Proof.
  intros Hp Hd Hnone. cbn [reduceToMatchers].
  rewrite (fold_outcome_assign _ fst snd).
  - cbn [app outcome_map]. now rewrite map_pair_eta.
  - intros [k x] Hkx acc. unfold reduce_field. rewrite Hp. cbn [buildPath fst snd].
    rewrite Hnone; [reflexivity|]. apply in_map_iff. now exists (k, x).
  - cbn [List.map app]. now apply distinct_NoDup.
Qed.

Lemma unmatched_fields_are_left_witness :
  reduceToMatchers (pact := sample_pact)
    (JObj [("user", JObj [("id", JStr "1")]); ("total", JNum (Int 3))])
    (Some {| path := None; noMatchFields := None;
             exclusiveMatchFields := Some ["user.id"] |})
  = Ok (JObj [("user", JObj [("id", JStr "1")]); ("total", JNum (Int 3))]).
Proof.
  apply (unmatched_fields_are_left sample_pact
           [("user", JObj [("id", JStr "1")]); ("total", JNum (Int 3))]
           (Some {| path := None; noMatchFields := None;
                    exclusiveMatchFields := Some ["user.id"] |})
           eq_refl eq_refl).
  intros key [<-|[<-|[]]]; reflexivity.
Defined.
